(** * vite-plugin-react-devtools: tree extraction and source navigation

    A shallow embedding of [src/react-detector.ts] and
    [src/source-navigation.ts], with the types of [src/types.ts] they use.

    - JavaScript numbers that stand for line, column and sibling positions
      are integers ([Z]); their decimal rendering is the one template
      literals produce for integers below 10^21 in absolute value.  [NaN]
      and fractions are outside the model.
    - Objects reached by reference (fibers, hook nodes) live in a store
      indexed by locations, so cyclic and aliased graphs can be written down.
    - The filesystem, path resolution and process spawning are read from a
      [World]; every function that touches them also returns the trace of
      its effects. *)

From stdpp Require Import gmap strings list.
From Stdlib Require Import Ascii DecimalString DecimalZ DecimalPos DecimalFacts.

Open Scope string_scope.
Open Scope list_scope.
Open Scope nat_scope.
Set Warnings "-register-all".

(* ================================================================== *)
(** ** JavaScript primitives used by the sources *)

Module JS.

(** [!!n] for a number: [0] is falsy. *)
Definition number_truthy (n : Z) : bool := negb (n =? 0)%Z.

(** Truthiness of an optional number argument ([undefined] is falsy). *)
Definition opt_number_truthy (o : option Z) : bool :=
  match o with
  | Some n => number_truthy n
  | None => false
  end.

(** [!!s] for a string: the empty string is falsy. *)
Definition string_truthy (s : string) : bool :=
  match s with
  | EmptyString => false
  | String _ _ => true
  end.

(** Truthiness of an optional string ([undefined] / [null] are falsy). *)
Definition opt_string_truthy (o : option string) : bool :=
  match o with
  | Some s => string_truthy s
  | None => false
  end.

(** [a || b] on optional strings, with a final string default. *)
Definition or_string (a : option string) (b : string) : string :=
  match a with
  | Some s => if string_truthy s then s else b
  | None => b
  end.

(** [`${n}`] for an integer [n]. *)
Definition number_toString (n : Z) : string :=
  NilZero.string_of_int (Z.to_int n).

(** [hay.includes(needle)] *)
Fixpoint includes (needle hay : string) : bool :=
  String.prefix needle hay
  || match hay with
     | EmptyString => false
     | String _ hay' => includes needle hay'
     end.

End JS.

(* ================================================================== *)
(** ** types.ts *)

Definition loc := nat.

Record ComponentSource := {
  fileName : string;
  lineNumber : Z;
  columnNumber : Z;
}.

Inductive HookType :=
| useState | useEffect | useContext | useReducer
| useMemo | useCallback | useRef | custom.

(** Opaque JavaScript values (props, hook values, dependency arrays) are
    carried as handles and never inspected. *)
Definition handle := nat.

Record Hook := {
  hook_id : Z;
  hook_name : string;
  hook_type : HookType;
  hook_value : option handle;
  hook_deps : option handle;
}.

Inductive ComponentType :=
| CFunction | CClass | CMemo | CForwardRef
| CFragment | CSuspense | CProvider | CConsumer.

(** [parent], a back reference to the enclosing component, is left out. *)
Inductive ReactComponent := mkComponent {
  id : string;
  name : string;
  type : ComponentType;
  displayName : option string;
  props : option handle;
  state : option loc;
  hooks : list Hook;
  children : list ReactComponent;
  fiber : option loc;
  source : option ComponentSource;
}.

(* ================================================================== *)
(** ** source-navigation.ts *)

Module SourceNavigation.

Record SourceLocation := {
  file : string;
  line : option Z;
  column : option Z;
}.

Record EditorConfig := {
  editor_name : string;
  command : string;
  args : string → option Z → option Z → list string;
}.

(** The argument builders of the registry, one per distinct body. *)

(* code, code-insiders: ['--goto', location] *)
Definition location_token (file : string) (line column : option Z) : string :=
  if JS.opt_number_truthy line && JS.opt_number_truthy column
  then file +:+ ":" +:+ JS.number_toString (default 0%Z line)
            +:+ ":" +:+ JS.number_toString (default 0%Z column)
  else if JS.opt_number_truthy line
  then file +:+ ":" +:+ JS.number_toString (default 0%Z line)
  else file.

Definition args_goto (file : string) (line column : option Z) : list string :=
  let location := location_token file line column in
  ["--goto"; location].

(* webstorm, idea: (file, line) => ['--line', location] *)
Definition args_line (file : string) (line _column : option Z) : list string :=
  let location :=
    if JS.opt_number_truthy line
    then file +:+ ":" +:+ JS.number_toString (default 0%Z line)
    else file in
  ["--line"; location].

(* sublime, atom: [location] *)
Definition args_bare (file : string) (line column : option Z) : list string :=
  let location := location_token file line column in
  [location].

(* vim, emacs: line ? [`+${line}`, file] : [file] *)
Definition args_plus (file : string) (line _column : option Z) : list string :=
  if JS.opt_number_truthy line
  then ["+" +:+ JS.number_toString (default 0%Z line); file]
  else [file].

Definition editor_entries : list (string * EditorConfig) :=
  [ ("code",
     {| editor_name := "Visual Studio Code"; command := "code"; args := args_goto |});
    ("code-insiders",
     {| editor_name := "Visual Studio Code Insiders"; command := "code-insiders";
        args := args_goto |});
    ("webstorm",
     {| editor_name := "WebStorm"; command := "webstorm"; args := args_line |});
    ("idea",
     {| editor_name := "IntelliJ IDEA"; command := "idea"; args := args_line |});
    ("sublime",
     {| editor_name := "Sublime Text"; command := "subl"; args := args_bare |});
    ("atom",
     {| editor_name := "Atom"; command := "atom"; args := args_bare |});
    ("vim",
     {| editor_name := "Vim"; command := "vim"; args := args_plus |});
    ("emacs",
     {| editor_name := "Emacs"; command := "emacs"; args := args_plus |}) ].

Definition SUPPORTED_EDITORS : gmap string EditorConfig :=
  list_to_map editor_entries.

(** [SUPPORTED_EDITORS[editor]] is a property read on an object literal:
    besides the eight own keys it finds the members every object inherits
    from [Object.prototype], which are truthy but carry no [args].  Their
    [name] is the one of the built-in found: [Object] for [constructor],
    nothing for [__proto__], the key itself for the other methods. *)
Definition object_prototype_keys : list string :=
  [ "constructor"; "hasOwnProperty"; "isPrototypeOf"; "propertyIsEnumerable";
    "toLocaleString"; "toString"; "valueOf"; "__proto__";
    "__defineGetter__"; "__defineSetter__"; "__lookupGetter__";
    "__lookupSetter__" ].

Definition inherited_name (key : string) : option string :=
  if String.eqb key "constructor" then Some "Object"
  else if String.eqb key "__proto__" then None
  else Some key.

Inductive property :=
| Own (cfg : EditorConfig)
| Inherited (name : option string)
| Undefined.

Definition get_editor (editor : string) : property :=
  match SUPPORTED_EDITORS !! editor with
  | Some cfg => Own cfg
  | None =>
      if bool_decide (editor ∈ object_prototype_keys)
      then Inherited (inherited_name editor)
      else Undefined
  end.

(** What the module reads from its environment: [existsSync] of node:fs,
    [join] and [resolve] of node:path (both variadic), and whether
    [spawn] of node:child_process throws for a command line.  The exit
    status of a spawned child is part of the world as well; nothing in
    this module reads it. *)
Record World := {
  existsSync : string → bool;
  path_join : list string → string;
  path_resolve : list string → string;
  spawn_throws : string → list string → bool;
  exit_status : string → list string → Z;
}.

Definition with_exit_status (w : World) (status : string → list string → Z)
    : World :=
  {| existsSync := existsSync w;
     path_join := path_join w;
     path_resolve := path_resolve w;
     spawn_throws := spawn_throws w;
     exit_status := status |}.

Inductive report :=
| UnsupportedEditor (editor : string)
| FileNotFound (resolvedFile : string)
| Opened (resolvedFile editorName : string)
| FailedToLaunch (editorName : option string).

Inductive event :=
| Probe (path : string)                                  (* existsSync(path) *)
| Spawn (cmd : string) (argv : list string) (detached : bool)
| Unref
| Console (r : report).

Definition is_spawn (e : event) : bool :=
  match e with
  | Spawn _ _ _ => true
  | _ => false
  end.

(** The processes started along a trace. *)
Definition spawned (trace : list event) : list event :=
  List.filter is_spawn trace.

(** [projectRoot ? resolve(projectRoot, file) : resolve(file)] *)
Definition resolveFile (w : World) (projectRoot : option string)
    (file : string) : string :=
  match projectRoot with
  | Some root =>
      if JS.string_truthy root then path_resolve w [root; file]
      else path_resolve w [file]
  | None => path_resolve w [file]
  end.

(** [resolved] is [file] resolved against the project root when one is
    given (a non-empty string), against the working directory otherwise. *)
Definition resolves_to (w : World) (projectRoot : option string)
    (file resolved : string) : Prop :=
  match projectRoot with
  | Some root =>
      if decide (root = "") then resolved = path_resolve w [file]
      else resolved = path_resolve w [root; file]
  | None => resolved = path_resolve w [file]
  end.

(** [launchEditor(editor, file, line?, column?, projectRoot?)]: the boolean
    the promise resolves to, and the effects performed on the way. *)
Definition launchEditor (w : World) (editor file : string)
    (line column : option Z) (projectRoot : option string)
    : bool * list event :=
  match get_editor editor with
  | Undefined => (false, [Console (UnsupportedEditor editor)])
  | editorConfig =>
      let resolvedFile := resolveFile w projectRoot file in
      if negb (existsSync w resolvedFile)
      then (false, [Probe resolvedFile; Console (FileNotFound resolvedFile)])
      else
        match editorConfig with
        | Own cfg =>
            let argv := args cfg resolvedFile line column in
            if spawn_throws w (command cfg) argv
            then (false, [Probe resolvedFile;
                          Console (FailedToLaunch (Some (editor_name cfg)))])
            else (true, [Probe resolvedFile;
                         Spawn (command cfg) argv true;
                         Unref;
                         Console (Opened resolvedFile (editor_name cfg))])
        | Inherited name =>
            (* editorConfig.args is not a function: TypeError inside try *)
            (false, [Probe resolvedFile; Console (FailedToLaunch name)])
        | Undefined => (false, [Console (UnsupportedEditor editor)])
        end
  end.

(** [getComponentSourceLocation(component)] *)
Definition getComponentSourceLocation (component : ReactComponent)
    : option SourceLocation :=
  match source component with
  | Some src =>
      Some {| file := fileName src;
              line := Some (lineNumber src);
              column := Some (columnNumber src) |}
  | None =>
      if JS.opt_string_truthy (displayName component)
         || JS.string_truthy (name component)
      then None
      else None
  end.

Definition default_srcDirs : list string := ["src"; "app"; "components"].

Definition patterns (componentName : string) : list string :=
  [ componentName +:+ ".tsx";
    componentName +:+ ".jsx";
    componentName +:+ ".ts";
    componentName +:+ ".js";
    componentName +:+ "/index.tsx";
    componentName +:+ "/index.jsx";
    componentName +:+ "/index.ts";
    componentName +:+ "/index.js" ].

(** The inner [for (const pattern of patterns)] loop: the path returned
    from inside the loop, if any, and the paths handed to [existsSync]. *)
Fixpoint probe_patterns (w : World) (projectRoot srcDir : string)
    (pats : list string) : option string * list string :=
  match pats with
  | [] => (None, [])
  | pattern :: rest =>
      let filePath := path_join w [projectRoot; srcDir; pattern] in
      if existsSync w filePath then (Some filePath, [filePath])
      else
        let '(r, probed) := probe_patterns w projectRoot srcDir rest in
        (r, filePath :: probed)
  end.

(** The outer [for (const srcDir of srcDirs)] loop. *)
Fixpoint probe_dirs (w : World) (projectRoot : string)
    (srcDirs pats : list string) : option string * list string :=
  match srcDirs with
  | [] => (None, [])
  | srcDir :: rest =>
      match probe_patterns w projectRoot srcDir pats with
      | (Some filePath, probed) => (Some filePath, probed)
      | (None, probed) =>
          let '(r, probed') := probe_dirs w projectRoot rest pats in
          (r, probed ++ probed')
      end
  end.

(** [resolveComponentFile(component, projectRoot, srcDirs = [...])]: the
    result and the list of paths probed with [existsSync], in order. *)
Definition resolveComponentFile (w : World) (component : ReactComponent)
    (projectRoot : string) (srcDirs : option (list string))
    : option string * list string :=
  let srcDirs := default default_srcDirs srcDirs in
  let location := getComponentSourceLocation component in
  match location with
  | Some l =>
      if JS.string_truthy (file l) then (Some (file l), [])
      else
        let componentName := JS.or_string (displayName component) (name component) in
        if negb (JS.string_truthy componentName) then (None, [])
        else probe_dirs w projectRoot srcDirs (patterns componentName)
  | None =>
      let componentName := JS.or_string (displayName component) (name component) in
      if negb (JS.string_truthy componentName) then (None, [])
      else probe_dirs w projectRoot srcDirs (patterns componentName)
  end.

(** The probing order as the specification words it: for each directory
    of [searchDirs] in turn, the eight patterns Name.tsx, Name.jsx,
    Name.ts, Name.js, Name/index.tsx, Name/index.jsx, Name/index.ts,
    Name/index.js under that directory. *)
Definition candidate_paths (w : World) (projectRoot : string)
    (searchDirs : list string) (Name : string) : list string :=
  dir ← searchDirs;
  suffix ← [".tsx"; ".jsx"; ".ts"; ".js";
            "/index.tsx"; "/index.jsx"; "/index.ts"; "/index.js"];
  [path_join w [projectRoot; dir; Name +:+ suffix]].

(** The paths of a list up to and including the first one that exists. *)
Fixpoint through_first_hit (w : World) (paths : list string) : list string :=
  match paths with
  | [] => []
  | p :: rest => if existsSync w p then [p] else p :: through_first_hit w rest
  end.

End SourceNavigation.

(* ================================================================== *)
(** ** react-detector.ts *)

Module ReactDetector.

(** *** The live graph (types.ts, [FiberNode]; [type] is [any]) *)

(** The value found under [type.$$typeof]. *)
Inductive TypeofTag :=
| TagSymbol (description : string)  (* Symbol.for(description) *)
| TagOpaque.                        (* a truthy object with no toString method *)

Record FunctionType := {
  fn_displayName : option string;
  fn_name : string;
  fn_isReactComponent : bool;       (* type.prototype && type.prototype.isReactComponent *)
  fn_typeof : option TypeofTag;
}.

Record ObjectType := {
  obj_displayName : option string;
  obj_name : option string;
  obj_typeof : option TypeofTag;
}.

Inductive FiberType :=
| TNull                             (* null / undefined *)
| THost (tag : string)              (* typeof type === 'string' *)
| TFunction (f : FunctionType)      (* typeof type === 'function' *)
| TObject (o : ObjectType)          (* typeof type === 'object' *)
| TSymbol (description : string).   (* typeof type === 'symbol' *)

Record FiberNode := {
  fiber_type : FiberType;
  key : option string;
  index : Z;
  fiber_return : option loc;
  child : option loc;
  sibling : option loc;
  memoizedProps : option handle;
  memoizedState : option loc;
}.

(** A node of the chain reached through [memoizedState] and [next].  A
    property of the node may be an accessor that throws when it is read;
    the three reads the decoder makes are flagged one by one. *)
Record HookNode := {
  hn_memoizedState : option handle;
  hn_queue : bool;                    (* 'queue' in node *)
  hn_deps : option (option handle);   (* 'deps' in node, and its value if truthy *)
  hn_next : option loc;
  hn_throws_memoizedState : bool;     (* reading hookNode.memoizedState throws *)
  hn_throws_deps : bool;              (* reading hookNode.deps throws *)
  hn_throws_next : bool;              (* reading hookNode.next throws *)
}.

(** The store.  A reference that is not in the store reads as [null]. *)
Record Graph := {
  fibers : gmap loc FiberNode;
  hookNodes : gmap loc HookNode;
}.

Definition deref_fiber (g : Graph) (r : option loc) : option FiberNode :=
  r ≫= (fibers g !!.).

Definition deref_hook (g : Graph) (r : option loc) : option HookNode :=
  r ≫= (hookNodes g !!.).

(** *** Outcomes and the walker's monad *)

(** [OutOfFuel] stands for a computation that does not finish within the
    given number of steps.  A loop that never ends has this outcome for
    every number of steps; so has, in this model, a recursion that never
    ends, which an engine cuts short with a stack overflow. *)
Inductive outcome (A : Type) :=
| Done (a : A)
| Thrown
| OutOfFuel.
Arguments Done {A} a.
Arguments Thrown {A}.
Arguments OutOfFuel {A}.

Definition outcome_map {A B} (f : A → B) (o : outcome A) : outcome B :=
  match o with
  | Done a => Done (f a)
  | Thrown => Thrown
  | OutOfFuel => OutOfFuel
  end.

(** A run that came to an end, normally or by a throw. *)
Definition finished {A S} (r : outcome A * S) : Prop := r.1 ≠ OutOfFuel.

(** State: the number of [Math.random()] calls made so far. *)
Definition M (A : Type) : Type := nat → outcome A * nat.

Definition ret {A} (a : A) : M A := λ n, (Done a, n).

Definition bind {A B} (m : M A) (k : A → M B) : M B :=
  λ n, match m n with
       | (Done a, n') => k a n'
       | (Thrown, n') => (Thrown, n')
       | (OutOfFuel, n') => (OutOfFuel, n')
       end.

Definition lift {A} (o : outcome A) : M A := λ n, (o, n).

Definition diverge {A} : M A := λ n, (OutOfFuel, n).

(** [try { m } catch { return a }] *)
Definition try_catch {A} (m : M A) (a : A) : M A :=
  λ n, match m n with
       | (Thrown, n') => (Done a, n')
       | r => r
       end.

Notation "x <- m ;; k" := (bind m (λ x, k))
  (at level 100, m at next level, right associativity).

(** *** Helpers of react-detector.ts *)

Definition tag_truthy (t : option TypeofTag) : bool :=
  match t with
  | Some _ => true
  | None => false
  end.

(** [tag.toString()] *)
Definition tag_toString (t : TypeofTag) : outcome string :=
  match t with
  | TagSymbol d => Done ("Symbol(" +:+ d +:+ ")")
  | TagOpaque => Thrown
  end.

(** [!!fiber.type] *)
Definition type_truthy (t : FiberType) : bool :=
  match t with
  | TNull => false
  | THost s => JS.string_truthy s
  | _ => true
  end.

Definition skipTypes : list string :=
  [ "react.strict_mode"; "react.profiler"; "react.suspense"; "react.fragment" ].

(** [shouldSkipFiber(fiber)] *)
Definition shouldSkipFiber (fb : FiberNode) : outcome bool :=
  match fiber_type fb with
  | TObject o =>
      match obj_typeof o with
      | Some tag =>
          match tag_toString tag with
          | Done typeString =>
              Done (existsb (λ skipType, JS.includes skipType typeString) skipTypes)
          | Thrown => Thrown
          | OutOfFuel => OutOfFuel
          end
      | None => Done false
      end
  | _ => Done false
  end.

(** [getComponentName(fiber)] *)
Definition getComponentName (fb : FiberNode) : string :=
  if negb (type_truthy (fiber_type fb)) then "Unknown"
  else match fiber_type fb with
       | TFunction f =>
           JS.or_string (fn_displayName f)
             (if JS.string_truthy (fn_name f) then fn_name f else "Anonymous")
       | THost s => s
       | TObject o =>
           if tag_truthy (obj_typeof o)
           then JS.or_string (obj_displayName o) "Component"
           else "Unknown"
       | _ => "Unknown"
       end.

(** [getComponentType(fiber)] *)
Definition getComponentType (fb : FiberNode) : outcome ComponentType :=
  if negb (type_truthy (fiber_type fb)) then Done CFunction
  else match fiber_type fb with
       | THost _ => Done CFunction
       | TFunction f =>
           if fn_isReactComponent f then Done CClass
           else match fn_typeof f with
                | Some tag =>
                    match tag_toString tag with
                    | Done s =>
                        if JS.includes "memo" s then Done CMemo
                        else if JS.includes "forward_ref" s then Done CForwardRef
                        else Done CFunction
                    | Thrown => Thrown
                    | OutOfFuel => OutOfFuel
                    end
                | None => Done CFunction
                end
       | _ => Done CFunction
       end.

(** [getHookName(_hookNode, index)] *)
Definition getHookName (hookIndex : Z) : string :=
  "Hook " +:+ JS.number_toString hookIndex.

(** [getHookType(hookNode)] *)
Definition getHookType (node : HookNode) : HookType :=
  if hn_queue node then useState
  else if bool_decide (is_Some (hn_deps node)) then useEffect
  else custom.

(** [getComponentSource(_fiber)] *)
Definition getComponentSource (_fiber : FiberNode) : option ComponentSource := None.

(** The [while (hookNode)] loop of [extractHooks], with the [hooks] array
    as accumulator.  A throw inside the loop is caught by the enclosing
    [try] and the array filled so far is returned: without the current
    record when [memoizedState] or [deps] cannot be read, which happens
    before [hooks.push(hook)], with it when [next] cannot be read, which
    happens after. *)
Fixpoint extractHooks_loop (fuel : nat) (g : Graph) (hookNode : option loc)
    (hookIndex : Z) (hooks : list Hook) : outcome (list Hook) :=
  match fuel with
  | O => OutOfFuel
  | S fuel' =>
      match deref_hook g hookNode with
      | None => Done hooks
      | Some node =>
          if hn_throws_memoizedState node then Done hooks
          else if hn_throws_deps node then Done hooks
          else
            let hook :=
              {| hook_id := hookIndex;
                 hook_name := getHookName hookIndex;
                 hook_type := getHookType node;
                 hook_value := hn_memoizedState node;
                 hook_deps := mjoin (hn_deps node) |} in
            if hn_throws_next node then Done (hooks ++ [hook])
            else
              extractHooks_loop fuel' g (hn_next node) (hookIndex + 1)
                (hooks ++ [hook])
      end
  end.

(** [extractHooks(fiber)] *)
Definition extractHooks (fuel : nat) (g : Graph) (fb : FiberNode)
    : outcome (list Hook) :=
  match deref_hook g (memoizedState fb) with
  | None => Done []
  | Some _ => extractHooks_loop fuel g (memoizedState fb) 0 []
  end.

(** The record [extractHooks] builds for the node at position [i]. *)
Definition hook_record (i : nat) (hn : HookNode) : Hook :=
  {| hook_id := Z.of_nat i;
     hook_name := getHookName (Z.of_nat i);
     hook_type := getHookType hn;
     hook_value := hn_memoizedState hn;
     hook_deps := mjoin (hn_deps hn) |}.

(** The nodes of a hook chain whose record is kept: the chain is followed
    from [r] until it ends, or until a node whose [memoizedState] or [deps]
    cannot be read (that node is left out), or until a node whose [next]
    cannot be read (that node is the last one kept). *)
Inductive decoded_chain (g : Graph) : option loc → list HookNode → Prop :=
| decoded_end r :
    deref_hook g r = None →
    decoded_chain g r []
| decoded_unread r hn :
    deref_hook g r = Some hn →
    hn_throws_memoizedState hn || hn_throws_deps hn = true →
    decoded_chain g r []
| decoded_last r hn :
    deref_hook g r = Some hn →
    hn_throws_memoizedState hn || hn_throws_deps hn = false →
    hn_throws_next hn = true →
    decoded_chain g r [hn]
| decoded_step r hn rest :
    deref_hook g r = Some hn →
    hn_throws_memoizedState hn || hn_throws_deps hn = false →
    hn_throws_next hn = false →
    decoded_chain g (hn_next hn) rest →
    decoded_chain g r (hn :: rest).

(** [generateComponentId(fiber)]; [rnd k] is the text
    [Math.random().toString(36).substring(2, 11)] of the [k]-th call. *)
Definition generateComponentId (rnd : nat → string) (fb : FiberNode) : M string :=
  λ n,
    let type :=
      match fiber_type fb with
      | TFunction f =>
          if JS.string_truthy (fn_name f) then fn_name f
          else JS.or_string (fn_displayName f) "Unknown"
      | TObject o =>
          if JS.opt_string_truthy (obj_name o) then default "" (obj_name o)
          else JS.or_string (obj_displayName o) "Unknown"
      | _ => "Unknown"
      end in
    let key := JS.or_string (key fb) "" in
    let index := index fb in
    (Done (type +:+ "_" +:+ key +:+ "_" +:+ JS.number_toString index
                +:+ "_" +:+ rnd n), S n).

(** *** The walker *)

Section Walk.
Variable rnd : nat → string.
Variable g : Graph.

(** [fiberToComponent(fiber, depth = 0)] and its [while (child)] loop.
    [depth] is passed along as in the source, which never reads it. *)
Fixpoint fiberToComponent (fuel : nat) (fiber : option loc) (depth : nat)
    {struct fuel} : M (option ReactComponent) :=
  match fuel with
  | O => diverge
  | S fuel' =>
      match deref_fiber g fiber with
      | None => ret None
      | Some fb =>
          skip <- lift (shouldSkipFiber fb) ;;
          if (skip : bool) then ret None
          else
            id <- generateComponentId rnd fb ;;
            type <- lift (getComponentType fb) ;;
            hooks <- lift (extractHooks fuel' g fb) ;;
            children <- extractChildren fuel' (child fb) depth [] ;;
            ret (Some {| id := id;
                         name := getComponentName fb;
                         type := type;
                         displayName := None;
                         props := memoizedProps fb;
                         state := memoizedState fb;
                         hooks := hooks;
                         children := children;
                         fiber := fiber;
                         source := getComponentSource fb |})
      end
  end
with extractChildren (fuel : nat) (child : option loc) (depth : nat)
    (children : list ReactComponent) {struct fuel} : M (list ReactComponent) :=
  match fuel with
  | O => diverge
  | S fuel' =>
      match deref_fiber g child with
      | None => ret children
      | Some cf =>
          childComponent <- fiberToComponent fuel' child (depth + 1) ;;
          extractChildren fuel' (sibling cf) depth
            (match childComponent with
             | Some c => children ++ [c]
             | None => children
             end)
      end
  end.

(** The [while (current.return)] loop of [getComponentTree]. *)
Fixpoint climb (fuel : nat) (current : FiberNode) : outcome FiberNode :=
  match fuel with
  | O => OutOfFuel
  | S fuel' =>
      match deref_fiber g (fiber_return current) with
      | Some parent => climb fuel' parent
      | None => Done current
      end
  end.

(** The renderer found on the DevTools hook: absent, or present with or
    without a [getCurrentFiber] method, whose result is a fiber or null. *)
Record Renderer := {
  getCurrentFiber : option (option loc);
}.

(** The body of the [try] block of [getComponentTree]. *)
Definition getComponentTree_body (fuel : nat) (currentFiber : option loc)
    : M (list ReactComponent) :=
  match currentFiber with
  | None => ret []
  | Some r =>
      match fibers g !! r with
      | None => ret []
      | Some rootFiber =>
          current <- lift (climb fuel rootFiber) ;;
          match deref_fiber g (child current) with
          | Some _ =>
              component <- fiberToComponent fuel (child current) 0 ;;
              match component with
              | Some c => ret [c]
              | None => ret []
              end
          | None => ret []
          end
      end
  end.

(** [getComponentTree()]: the [catch] turns any throw into [[]]. *)
Definition getComponentTree (fuel : nat) (renderer : option Renderer)
    : M (list ReactComponent) :=
  match renderer with
  | None => ret []
  | Some r =>
      match getCurrentFiber r with
      | None => ret []
      | Some currentFiber =>
          try_catch (getComponentTree_body fuel currentFiber) []
      end
  end.

End Walk.

(** *** What a snapshot looks like once the generated ids are removed *)

Inductive Shape := MkShape {
  shape_name : string;
  shape_type : ComponentType;
  shape_children : list Shape;
}.

Fixpoint shape_of (c : ReactComponent) : Shape :=
  {| shape_name := name c;
     shape_type := type c;
     shape_children := map shape_of (children c) |}.

(** A forest with its ids removed, when the run produced one. *)
Definition forest_shape (r : outcome (list ReactComponent) * nat)
    : outcome (list Shape) :=
  outcome_map (map shape_of) r.1.

(** Two runs end the same way, with results related by [R]. *)
Definition alike {A} (R : A → A → Prop) (r1 r2 : outcome A * nat) : Prop :=
  match r1.1, r2.1 with
  | Done a, Done b => R a b
  | Thrown, Thrown => True
  | OutOfFuel, OutOfFuel => True
  | _, _ => False
  end.

Definition same_shapes (l1 l2 : list ReactComponent) : Prop :=
  map shape_of l1 = map shape_of l2.

(** Number of nodes and height of a snapshot tree. *)
Fixpoint node_count (c : ReactComponent) : nat :=
  S (list_sum (map node_count (children c))).

Fixpoint height (c : ReactComponent) : nat :=
  S (foldr Nat.max 0 (map height (children c))).

End ReactDetector.

(* ================================================================== *)
(** ** Worlds and components used in the examples *)

Module Fixtures.
Import SourceNavigation.

(** node:path on POSIX, for segments that are already normalised:
    [join] glues the segments with a slash; [resolve] starts from the
    working directory and restarts at every absolute segment. *)
Definition posix_join (segments : list string) : string :=
  String.concat "/" segments.

Definition is_absolute (p : string) : bool := String.prefix "/" p.

Definition posix_resolve (cwd : string) (segments : list string) : string :=
  foldl (λ base seg, if is_absolute seg then seg else base +:+ "/" +:+ seg)
        cwd segments.

(** A machine whose filesystem holds exactly [files], whose working
    directory is [cwd], and on which every spawn succeeds. *)
Definition world_with (files : list string) (cwd : string) : World :=
  {| existsSync := λ p, bool_decide (p ∈ files);
     path_join := posix_join;
     path_resolve := posix_resolve cwd;
     spawn_throws := λ _ _, false;
     exit_status := λ _ _, 1%Z |}.

Definition proj_world : World :=
  world_with ["/proj/src/UserCard.tsx"; "/proj/main.ts"] "/proj".

(** The same files, seen from a working directory that is not the project
    root. *)
Definition dev_world : World :=
  world_with ["/proj/src/UserCard.tsx"; "/proj/main.ts"] "/home/dev".

Definition component_named (n : string) (src : option ComponentSource)
    : ReactComponent :=
  {| id := "UserCard__0_k3x9q2m1a"; name := n; type := CFunction;
     displayName := None; props := None; state := None; hooks := [];
     children := []; fiber := None; source := src |}.

Definition UserCard : ReactComponent := component_named "UserCard" None.

Definition UserCard_with_source : ReactComponent :=
  component_named "UserCard"
    (Some {| fileName := "/proj/src/widgets/Card.tsx";
             lineNumber := 12; columnNumber := 3 |}).

(** Source metadata is present, but its [fileName] is the empty string. *)
Definition UserCard_blank_source : ReactComponent :=
  component_named "UserCard"
    (Some {| fileName := ""; lineNumber := 12; columnNumber := 3 |}).

End Fixtures.

(* ================================================================== *)
(** ** String predicates used to state facts about argument tokens *)

Module Token.

(** No character of [s] is a colon. *)
Fixpoint no_colon (s : string) : bool :=
  match s with
  | EmptyString => true
  | String c s' => negb (Ascii.eqb c ":"%char) && no_colon s'
  end.

(** The last character of [s] is a colon. *)
Fixpoint ends_colon (s : string) : bool :=
  match s with
  | EmptyString => false
  | String c EmptyString => Ascii.eqb c ":"%char
  | String _ s' => ends_colon s'
  end.

(** [s] contains a colon immediately followed by the digit zero. *)
Definition has_colon_zero (s : string) : bool := JS.includes ":0" s.

End Token.

(* ================================================================== *)
(** ** Live graphs used in the examples *)

Module Graphs.
Import ReactDetector.

(** A function component called [n]. *)
Definition fn (n : string) : FiberType :=
  TFunction {| fn_displayName := None; fn_name := n;
               fn_isReactComponent := false; fn_typeof := None |}.

(** An object type tagged [Symbol(description)]. *)
Definition marker (description : string) : FiberType :=
  TObject {| obj_displayName := None; obj_name := None;
             obj_typeof := Some (TagSymbol description) |}.

(** A function type whose [$$typeof] cannot be turned into a string. *)
Definition unreadable (n : string) : FiberType :=
  TFunction {| fn_displayName := None; fn_name := n;
               fn_isReactComponent := false; fn_typeof := Some TagOpaque |}.

Definition node (t : FiberType) (ret child sibling : option loc) : FiberNode :=
  {| fiber_type := t; key := None; index := 0; fiber_return := ret;
     child := child; sibling := sibling;
     memoizedProps := None; memoizedState := None |}.

Definition with_hooks (fb : FiberNode) (head : option loc) : FiberNode :=
  {| fiber_type := fiber_type fb; key := key fb; index := index fb;
     fiber_return := fiber_return fb; child := child fb; sibling := sibling fb;
     memoizedProps := memoizedProps fb; memoizedState := head |}.

Definition graph_of (fs : list (loc * FiberNode)) (hs : list (loc * HookNode))
    : Graph :=
  {| fibers := list_to_map fs; hookNodes := list_to_map hs |}.

(** The renderer whose current fiber is [l]. *)
Definition renderer_at (l : loc) : option Renderer :=
  Some {| getCurrentFiber := Some (Some l) |}.

(** Two sources of randomness: one repeats the same text at every call of
    [Math.random], the other numbers its texts. *)
Definition rnd_fixed : nat → string := λ _, "k3x9q2m1a".
Definition rnd_other : nat → string := λ k, "z" +:+ JS.number_toString (Z.of_nat k).

(** root container 0 → App → [ StrictMode-tagged wrapper → [Inner], Other ] *)
Definition wrapped_child : Graph :=
  graph_of
    [ (0, node TNull None (Some 1) None);
      (1, node (fn "App") (Some 0) (Some 2) None);
      (2, node (marker "react.strict_mode") (Some 1) (Some 3) (Some 4));
      (3, node (fn "Inner") (Some 2) None None);
      (4, node (fn "Other") (Some 1) None None) ]
    [].

(** root container 0 → StrictMode-tagged wrapper → App → [Counter, UserList] *)
Definition wrapped_app : Graph :=
  graph_of
    [ (0, node TNull None (Some 1) None);
      (1, node (marker "react.strict_mode") (Some 0) (Some 2) None);
      (2, node (fn "App") (Some 1) (Some 3) None);
      (3, node (fn "Counter") (Some 2) None (Some 4));
      (4, node (fn "UserList") (Some 2) None None) ]
    [].

(** root container 0 → App → [Counter, UserList] *)
Definition plain_app : Graph :=
  graph_of
    [ (0, node TNull None (Some 1) None);
      (1, node (fn "App") (Some 0) (Some 2) None);
      (2, node (fn "Counter") (Some 1) None (Some 3));
      (3, node (fn "UserList") (Some 1) None None) ]
    [].

(** A hook node holding value [v], followed by [next]. *)
Definition state_hook (v : handle) (next : option loc) : HookNode :=
  {| hn_memoizedState := Some v; hn_queue := true; hn_deps := None;
     hn_next := next; hn_throws_memoizedState := false;
     hn_throws_deps := false; hn_throws_next := false |}.

Definition Form : FiberNode :=
  with_hooks (node (fn "Form") None None None) (Some 1).

(** One component whose hook chain has [k] nodes, at locations 1..k. *)
Definition hook_chain_graph (k : nat) : Graph :=
  graph_of
    [ (1, Form) ]
    (map (λ i, (i, state_hook i (if decide (i < k) then Some (S i) else None)))
         (seq 1 k)).

(** One component whose only hook node is its own successor. *)
Definition hook_cycle_graph : Graph :=
  graph_of
    [ (1, Form) ]
    [ (1, state_hook 7 (Some 1)) ].

(** [k] components nested one inside the other, at locations 1..k. *)
Definition level (k i : nat) : FiberNode :=
  node (fn "Level")
       (if decide (1 < i) then Some (pred i) else None)
       (if decide (i < k) then Some (S i) else None)
       None.

Definition nested_graph (k : nat) : Graph :=
  graph_of (map (λ i, (i, level k i)) (seq 1 k)) [].

(** App → [Item], where Item is its own next sibling. *)
Definition sibling_cycle_graph : Graph :=
  graph_of
    [ (1, node (fn "App") None (Some 2) None);
      (2, node (fn "Item") (Some 1) None (Some 2)) ]
    [].

(** Four fibers; D is the child of both B and C. *)
Definition aliased_graph : Graph :=
  graph_of
    [ (1, node (fn "A") None (Some 2) None);
      (2, node (fn "B") (Some 1) (Some 4) (Some 3));
      (3, node (fn "C") (Some 1) (Some 4) None);
      (4, node (fn "D") (Some 2) None None) ]
    [].

(** An effect hook holding value [v] and dependencies [d]. *)
Definition effect_hook (v d : handle) (next : option loc) : HookNode :=
  {| hn_memoizedState := Some v; hn_queue := false; hn_deps := Some (Some d);
     hn_next := next; hn_throws_memoizedState := false;
     hn_throws_deps := false; hn_throws_next := false |}.

(** The same node, with a [memoizedState] that cannot be read. *)
Definition unreadable_state (hn : HookNode) : HookNode :=
  {| hn_memoizedState := hn_memoizedState hn; hn_queue := hn_queue hn;
     hn_deps := hn_deps hn; hn_next := hn_next hn;
     hn_throws_memoizedState := true;
     hn_throws_deps := hn_throws_deps hn; hn_throws_next := hn_throws_next hn |}.

(** The same node, with a [next] that cannot be read. *)
Definition unreadable_next (hn : HookNode) : HookNode :=
  {| hn_memoizedState := hn_memoizedState hn; hn_queue := hn_queue hn;
     hn_deps := hn_deps hn; hn_next := hn_next hn;
     hn_throws_memoizedState := hn_throws_memoizedState hn;
     hn_throws_deps := hn_throws_deps hn; hn_throws_next := true |}.

(** root container 0 → Form, whose chain has four hook nodes; the state of
    the third cannot be read. *)
Definition third_hook_unreadable : Graph :=
  graph_of
    [ (0, node TNull None (Some 1) None);
      (1, with_hooks (node (fn "Form") (Some 0) None None) (Some 1)) ]
    [ (1, state_hook 10 (Some 2));
      (2, effect_hook 11 12 (Some 3));
      (3, unreadable_state (state_hook 13 (Some 4)));
      (4, state_hook 14 None) ].

(** The same component; the [next] of the second hook node cannot be read. *)
Definition second_next_unreadable : Graph :=
  graph_of
    [ (0, node TNull None (Some 1) None);
      (1, with_hooks (node (fn "Form") (Some 0) None None) (Some 1)) ]
    [ (1, state_hook 10 (Some 2));
      (2, unreadable_next (effect_hook 11 12 (Some 3)));
      (3, state_hook 13 None) ].

(** root container 0 → App → [Good, Bad, Later]; reading Bad throws. *)
Definition one_bad_node : Graph :=
  graph_of
    [ (0, node TNull None (Some 1) None);
      (1, node (fn "App") (Some 0) (Some 2) None);
      (2, node (fn "Good") (Some 1) None (Some 3));
      (3, node (unreadable "Bad") (Some 1) None (Some 4));
      (4, node (fn "Later") (Some 1) None None) ]
    [].

(** The same graph with Bad replaced by a skipped node without children. *)
Definition one_bad_node_skipped : Graph :=
  graph_of
    [ (0, node TNull None (Some 1) None);
      (1, node (fn "App") (Some 0) (Some 2) None);
      (2, node (fn "Good") (Some 1) None (Some 3));
      (3, node (marker "react.fragment") (Some 1) None (Some 4));
      (4, node (fn "Later") (Some 1) None None) ]
    [].

Definition leaf (n : string) : Shape :=
  {| shape_name := n; shape_type := CFunction; shape_children := [] |}.

Definition branch (n : string) (kids : list Shape) : Shape :=
  {| shape_name := n; shape_type := CFunction; shape_children := kids |}.

End Graphs.


(* ================================================================== *)
(** ** react-detector.ts, continued: lookup, availability *)

Module ReactDetectorRest.
Import ReactDetector.

(** The [for (const component of tree)] loop of [findComponentById], with
    the visit of one component as a parameter. *)
Definition findComponentById_loop
    (visit : ReactComponent → option ReactComponent)
    : list ReactComponent → option ReactComponent :=
  fix loop tree :=
    match tree with
    | [] => None
    | component :: rest =>
        match visit component with
        | Some found => Some found
        | None => loop rest
        end
    end.

(** One turn of that loop: the id test, then the recursive call on the
    children. *)
Fixpoint findComponentById_visit (target : string) (component : ReactComponent)
    : option ReactComponent :=
  if String.eqb (id component) target then Some component
  else findComponentById_loop (findComponentById_visit target) (children component).

(** [findComponentById(tree, id)] *)
Definition findComponentById (tree : list ReactComponent) (target : string)
    : option ReactComponent :=
  findComponentById_loop (findComponentById_visit target) tree.

(** All components of a tree and of a forest, parents before children,
    siblings left to right. *)
Fixpoint nodes (c : ReactComponent) : list ReactComponent :=
  c :: concat (map nodes (children c)).

Definition forest_nodes (tree : list ReactComponent) : list ReactComponent :=
  concat (map nodes tree).

(** *** Reading a snapshot against the graph it was taken from *)

(** The fibers met by following [sibling] from [c] until null. *)
Inductive sibling_chain (g : Graph) : option loc → list loc → Prop :=
| chain_end c :
    deref_fiber g c = None → sibling_chain g c []
| chain_step l fb rest :
    fibers g !! l = Some fb →
    sibling_chain g (sibling fb) rest →
    sibling_chain g (Some l) (l :: rest).

(** [shouldSkipFiber] answers true for the fiber at [l]. *)
Definition skipped (g : Graph) (l : loc) : bool :=
  match fibers g !! l with
  | Some fb =>
      match shouldSkipFiber fb with
      | Done true => true
      | _ => false
      end
  | None => false
  end.

(** A snapshot node that copies the fiber it points to. *)
Definition mirrors (g : Graph) (c : ReactComponent) : Prop :=
  ∃ l fb,
    fiber c = Some l
    ∧ fibers g !! l = Some fb
    ∧ shouldSkipFiber fb = Done false
    ∧ name c = getComponentName fb
    ∧ getComponentType fb = Done (type c)
    ∧ props c = memoizedProps fb
    ∧ state c = memoizedState fb
    ∧ displayName c = None
    ∧ source c = None.

(** The fiber at [l] is kept by the walk. *)
Definition kept (g : Graph) (l : loc) : bool := negb (skipped g l).

(** The children of the snapshot node [c] are the kept fibers on the
    sibling list of its fiber's first child, in that order. *)
Definition children_in_sibling_order (g : Graph) (c : ReactComponent) : Prop :=
  ∃ l fb locs,
    fiber c = Some l
    ∧ fibers g !! l = Some fb
    ∧ sibling_chain g (child fb) locs
    ∧ map fiber (children c) = map Some (List.filter (kept g) locs).

(** root container 0 → [App, Portal]: two fibers at the top level. *)
Definition two_top_level_fibers : Graph :=
  Graphs.graph_of
    [ (0, Graphs.node TNull None (Some 1) None);
      (1, Graphs.node (Graphs.fn "App") (Some 0) None (Some 2));
      (2, Graphs.node (Graphs.fn "Portal") (Some 0) None None) ]
    [].

(** The hook records of the snapshot node [c] are those of the decoded
    part of its fiber's hook chain, numbered from 0. *)
Definition hooks_decoded (g : Graph) (c : ReactComponent) : Prop :=
  ∃ l fb chain,
    fiber c = Some l
    ∧ fibers g !! l = Some fb
    ∧ decoded_chain g (memoizedState fb) chain
    ∧ hooks c = imap hook_record chain.

End ReactDetectorRest.

(* ================================================================== *)
(** ** Proof automation *)

(** Membership of a literal in a literal list, and its refutation. *)
Ltac elem_yes := apply (bool_decide_unpack _); vm_compute; exact I.
Ltac elem_no H := apply (bool_decide_pack _) in H; vm_compute in H; destruct H.

(* ================================================================== *)
(** ** Decimal rendering of integers and the [:0] pattern *)

Module TokenFacts.
Import Token.

Lemma append_cons c a b : String c a +:+ b = String c (a +:+ b).
Proof. reflexivity. Qed.

Lemma append_nil b : "" +:+ b = b.
Proof. reflexivity. Qed.

Lemma append_nil_r a : a +:+ "" = a.
Proof. induction a as [|c a IH]; [done|]. by rewrite append_cons, IH. Qed.

Lemma prefix_empty s : String.prefix "" s = true.
Proof. by destruct s. Qed.

Lemma prefix_colon_zero c s :
  String.prefix ":0" (String c s) = Ascii.eqb c ":"%char && String.prefix "0" s.
Proof.
  cbn [String.prefix]. destruct (Ascii.ascii_dec ":"%char c) as [<-|Hne].
  - reflexivity.
  - destruct (Ascii.eqb_spec c ":"%char) as [->|_]; [by destruct Hne | reflexivity].
Qed.

Lemma prefix_zero_app a b :
  a ≠ "" → String.prefix "0" (a +:+ b) = String.prefix "0" a.
Proof.
  destruct a as [|c a]; [done|]. intros _.
  rewrite append_cons. cbn [String.prefix].
  destruct (Ascii.ascii_dec "0"%char c); [|reflexivity].
  by rewrite !prefix_empty.
Qed.

Lemma has_colon_zero_cons c s :
  has_colon_zero (String c s)
  = (Ascii.eqb c ":"%char && String.prefix "0" s) || has_colon_zero s.
Proof.
  unfold has_colon_zero. cbn [JS.includes]. by rewrite prefix_colon_zero.
Qed.

(** Where a [:0] can sit in a concatenation: inside the left part, inside
    the right part, or across the seam. *)
Lemma has_colon_zero_app a b :
  has_colon_zero (a +:+ b)
  = has_colon_zero a || (ends_colon a && String.prefix "0" b) || has_colon_zero b.
Proof.
  induction a as [|c a IH].
  - reflexivity.
  - rewrite append_cons, !has_colon_zero_cons, IH.
    destruct a as [|c' a].
    + rewrite append_nil. cbn [ends_colon].
      replace (String.prefix "0" "") with false by reflexivity.
      replace (has_colon_zero "") with false by reflexivity.
      destruct (Ascii.eqb c ":"%char), (String.prefix "0" b), (has_colon_zero b);
        reflexivity.
    + rewrite prefix_zero_app by done.
      change (ends_colon (String c (String c' a)))
        with (ends_colon (String c' a)).
      destruct (Ascii.eqb c ":"%char), (String.prefix "0" (String c' a)),
        (has_colon_zero (String c' a)), (ends_colon (String c' a)),
        (String.prefix "0" b), (has_colon_zero b); reflexivity.
Qed.

Lemma no_colon_has_colon_zero s : no_colon s = true → has_colon_zero s = false.
Proof.
  induction s as [|c s IH]; [reflexivity|].
  cbn [no_colon]. intros [Hc Hs]%andb_true_iff.
  rewrite has_colon_zero_cons, (IH Hs).
  by destruct (Ascii.eqb c ":"%char).
Qed.

Lemma no_colon_ends_colon s : no_colon s = true → ends_colon s = false.
Proof.
  induction s as [|c s IH]; [reflexivity|].
  cbn [no_colon]. intros [Hc Hs]%andb_true_iff.
  destruct s as [|c' s]; [|exact (IH Hs)].
  cbn. by destruct (Ascii.eqb c ":"%char).
Qed.

(** Digits *)

Lemma digits_no_colon d : no_colon (NilEmpty.string_of_uint d) = true.
Proof. induction d; cbn; auto. Qed.

Lemma digits_nonempty d : d ≠ Decimal.Nil → NilEmpty.string_of_uint d ≠ "".
Proof. by destruct d. Qed.

Lemma nzhead_no_leading_zero d :
  String.prefix "0" (NilEmpty.string_of_uint (Decimal.nzhead d)) = false.
Proof. induction d; cbn; auto. Qed.

Lemma to_uint_normal p : Decimal.unorm (Pos.to_uint p) = Pos.to_uint p.
Proof.
  rewrite <- (DecimalPos.Unsigned.to_of (Pos.to_uint p)).
  by rewrite DecimalPos.Unsigned.of_to.
Qed.

Lemma to_uint_nzhead p : Decimal.nzhead (Pos.to_uint p) = Pos.to_uint p.
Proof.
  pose proof (to_uint_normal p) as H.
  destruct (Decimal.nzhead (Pos.to_uint p)) eqn:E.
  all: try (rewrite unorm_nzhead in H by (rewrite E; discriminate); congruence).
  apply unorm_0 in E. rewrite H in E.
  by destruct (DecimalPos.Unsigned.to_uint_nonzero p).
Qed.

Lemma pos_string p :
  NilZero.string_of_uint (Pos.to_uint p) = NilEmpty.string_of_uint (Pos.to_uint p).
Proof.
  pose proof (DecimalPos.Unsigned.to_uint_nonnil p).
  by destruct (Pos.to_uint p).
Qed.

Lemma number_no_colon n : no_colon (JS.number_toString n) = true.
Proof.
  unfold JS.number_toString. destruct n as [|p|p]; [reflexivity|..].
  - cbn. rewrite pos_string. apply digits_no_colon.
  - cbn [Z.to_int NilZero.string_of_int no_colon]. rewrite pos_string.
    rewrite digits_no_colon. reflexivity.
Qed.

Lemma number_nonempty n : JS.number_toString n ≠ "".
Proof.
  unfold JS.number_toString. destruct n as [|p|p]; [done|..|done].
  cbn. rewrite pos_string. apply digits_nonempty.
  apply DecimalPos.Unsigned.to_uint_nonnil.
Qed.

(** A non-zero integer is never printed with a leading zero. *)
Lemma number_no_leading_zero n :
  n ≠ 0%Z → String.prefix "0" (JS.number_toString n) = false.
Proof.
  unfold JS.number_toString. destruct n as [|p|p]; [done|..]; intros _.
  - cbn. rewrite pos_string, <- to_uint_nzhead. apply nzhead_no_leading_zero.
  - reflexivity.
Qed.

(** [s:n] and [s:n:m] carry no [:0] unless [s] does. *)
Lemma colon_number_clean n rest :
  n ≠ 0%Z → has_colon_zero rest = false →
  has_colon_zero (":" +:+ JS.number_toString n +:+ rest) = false.
Proof.
  intros Hn Hrest. rewrite append_cons, append_nil.
  rewrite has_colon_zero_cons, prefix_zero_app by apply number_nonempty.
  rewrite number_no_leading_zero by done.
  rewrite has_colon_zero_app, no_colon_has_colon_zero by apply number_no_colon.
  rewrite no_colon_ends_colon by apply number_no_colon.
  by rewrite Hrest.
Qed.

Lemma file_suffix_clean file suffix :
  has_colon_zero file = false →
  String.prefix "0" suffix = false →
  has_colon_zero suffix = false →
  has_colon_zero (file +:+ suffix) = false.
Proof.
  intros Hf Hp Hs. rewrite has_colon_zero_app, Hf, Hp, Hs.
  by destruct (ends_colon file).
Qed.

End TokenFacts.

(* ================================================================== *)
(** ** Facts about source-navigation.ts *)

Module SourceNavigationFacts.
Import SourceNavigation Fixtures.

Lemma registry_lookup key cfg :
  SUPPORTED_EDITORS !! key = Some cfg → (key, cfg) ∈ editor_entries.
Proof. intros H. by apply elem_of_list_to_map_2 in H. Qed.

Lemma triple_eq {A B C} (a x : A) (b y : B) (c z : C) :
  (a, b, c) = (x, y, z) → a = x ∧ b = y ∧ c = z.
Proof. by intros [= -> -> ->]. Qed.

Lemma truthy_nonzero (n : Z) : n ≠ 0%Z → JS.opt_number_truthy (Some n) = true.
Proof.
  intros Hn. unfold JS.opt_number_truthy, JS.number_truthy.
  by destruct (Z.eqb_spec n 0).
Qed.

Lemma location_token_line file l :
  l ≠ 0%Z →
  location_token file (Some l) None = file +:+ ":" +:+ JS.number_toString l.
Proof.
  intros Hl. unfold location_token. rewrite (truthy_nonzero l Hl). reflexivity.
Qed.

Lemma location_token_line_column file l c :
  l ≠ 0%Z → c ≠ 0%Z →
  location_token file (Some l) (Some c)
  = file +:+ ":" +:+ JS.number_toString l +:+ ":" +:+ JS.number_toString c.
Proof.
  intros Hl Hc. unfold location_token.
  rewrite (truthy_nonzero l Hl), (truthy_nonzero c Hc). reflexivity.
Qed.

Lemma get_editor_own editor cfg :
  SUPPORTED_EDITORS !! editor = Some cfg → get_editor editor = Own cfg.
Proof. intros H. unfold get_editor. by rewrite H. Qed.

Lemma get_editor_not_own editor :
  SUPPORTED_EDITORS !! editor = None →
  (∃ name, get_editor editor = Inherited name) ∨ get_editor editor = Undefined.
Proof.
  intros H. unfold get_editor. rewrite H.
  destruct (bool_decide _); eauto.
Qed.

Lemma resolveFile_spec w projectRoot file resolved :
  resolves_to w projectRoot file resolved →
  resolveFile w projectRoot file = resolved.
Proof.
  unfold resolves_to, resolveFile. destruct projectRoot as [root|]; [|done].
  destruct (decide (root = "")) as [->|Hne]; [done|].
  by destruct root.
Qed.

(** C6 (as amended).  Every registered editor profile accepts the three
    call shapes file-only, file+line and file+line+column, and answers in
    its own grammar: code and code-insiders with [--goto] and one
    [file:line:column] token, webstorm and idea with the [--line] flag and
    a [file:line] token, sublime and atom with the bare token, vim and
    emacs with [+line] before the file.  Which grammar applies is decided
    by the profile alone: [launchEditor] starts the profile's command with
    what the profile's builder returns, and the file it hands to the builder
    is the resolved one, not the one it was called with. *)
Theorem args_three_call_shapes key cfg file l c :
  SUPPORTED_EDITORS !! key = Some cfg → l ≠ 0%Z → c ≠ 0%Z →
  let L := JS.number_toString l in
  let C := JS.number_toString c in
  let shapes := (args cfg file None None,
                 args cfg file (Some l) None,
                 args cfg file (Some l) (Some c)) in
  key ∈ ["code"; "code-insiders"; "webstorm"; "idea";
         "sublime"; "atom"; "vim"; "emacs"]
  ∧ (key ∈ ["code"; "code-insiders"] →
     shapes = (["--goto"; file],
               ["--goto"; file +:+ ":" +:+ L],
               ["--goto"; file +:+ ":" +:+ L +:+ ":" +:+ C]))
  ∧ (key ∈ ["webstorm"; "idea"] →
     shapes = (["--line"; file],
               ["--line"; file +:+ ":" +:+ L],
               ["--line"; file +:+ ":" +:+ L]))
  ∧ (key ∈ ["sublime"; "atom"] →
     shapes = ([file],
               [file +:+ ":" +:+ L],
               [file +:+ ":" +:+ L +:+ ":" +:+ C]))
  ∧ (key ∈ ["vim"; "emacs"] →
     shapes = ([file], ["+" +:+ L; file], ["+" +:+ L; file]))
  ∧ (∀ w line column projectRoot resolvedFile,
       resolves_to w projectRoot file resolvedFile →
       let argv := args cfg resolvedFile line column in
       existsSync w resolvedFile = true →
       spawn_throws w (command cfg) argv = false →
       spawned (launchEditor w key file line column projectRoot).2
       = [Spawn (command cfg) argv true]).
Proof.
  intros Hkey Hl Hc L C shapes. subst shapes L C.
  assert (∀ w line column projectRoot resolvedFile,
            resolves_to w projectRoot file resolvedFile →
            let argv := args cfg resolvedFile line column in
            existsSync w resolvedFile = true →
            spawn_throws w (command cfg) argv = false →
            spawned (launchEditor w key file line column projectRoot).2
            = [Spawn (command cfg) argv true]) as Hlaunch.
  { intros w line column projectRoot resolvedFile Hres%resolveFile_spec argv
      Hex Hspawn.
    unfold launchEditor. rewrite (get_editor_own _ _ Hkey), Hres, Hex.
    cbn [negb]. fold argv. by rewrite Hspawn. }
  revert Hlaunch. apply registry_lookup in Hkey.
  pose proof (truthy_nonzero l Hl) as Tl.
  unfold editor_entries in Hkey.
  repeat (apply elem_of_cons in Hkey as [Hkey|Hkey];
          [injection Hkey as -> ->|]); [..|by apply elem_of_nil in Hkey].
  all: intros Hlaunch; split; [elem_yes|].
  all: refine (conj _ (conj _ (conj _ (conj _ Hlaunch)))).
  all: cbn [args]; unfold args_goto, args_bare, args_line, args_plus.
  all: rewrite ?location_token_line, ?location_token_line_column, ?Tl
         by assumption.
  all: intros Hk; first [reflexivity | elem_no Hk].
Qed.

Lemma args_three_call_shapes_witness :
  (∃ code, SUPPORTED_EDITORS !! "code" = Some code
     ∧ args code "main.ts" (Some 10%Z) None = ["--goto"; "main.ts:10"]
     ∧ args code "main.ts" (Some 10%Z) (Some 3%Z) = ["--goto"; "main.ts:10:3"]
     ∧ spawned (launchEditor dev_world "code" "main.ts" (Some 10%Z) None
                  (Some "/proj")).2
       = [Spawn "code" ["--goto"; "/proj/main.ts:10"] true])
  ∧ (∃ vim, SUPPORTED_EDITORS !! "vim" = Some vim
     ∧ args vim "main.ts" (Some 10%Z) None = ["+10"; "main.ts"]
     ∧ spawned (launchEditor dev_world "vim" "main.ts" (Some 10%Z) None
                  (Some "/proj")).2
       = [Spawn "vim" ["+10"; "/proj/main.ts"] true])
  ∧ (∃ idea, SUPPORTED_EDITORS !! "idea" = Some idea
     ∧ args idea "main.ts" (Some 10%Z) None = ["--line"; "main.ts:10"]
     ∧ spawned (launchEditor dev_world "idea" "main.ts" (Some 10%Z) None
                  (Some "/proj")).2
       = [Spawn "idea" ["--line"; "/proj/main.ts:10"] true]).
Proof.
  assert (resolves_to dev_world (Some "/proj") "main.ts" "/proj/main.ts")
    as Hres by reflexivity.
  split; [|split].
  - eexists; split; [reflexivity|].
    destruct (args_three_call_shapes "code" _ "main.ts" 10 3 eq_refl)
      as (_ & H & _ & _ & _ & Hlaunch); [lia | lia |].
    specialize (H ltac:(elem_yes)). apply triple_eq in H as (_ & H1 & H2).
    split; [exact H1 | split; [exact H2|]].
    exact (Hlaunch dev_world (Some 10%Z) None _ _ Hres eq_refl eq_refl).
  - eexists; split; [reflexivity|].
    destruct (args_three_call_shapes "vim" _ "main.ts" 10 3 eq_refl)
      as (_ & _ & _ & _ & H & Hlaunch); [lia | lia |].
    specialize (H ltac:(elem_yes)). apply triple_eq in H as (_ & H1 & _).
    split; [exact H1|].
    exact (Hlaunch dev_world (Some 10%Z) None _ _ Hres eq_refl eq_refl).
  - eexists; split; [reflexivity|].
    destruct (args_three_call_shapes "idea" _ "main.ts" 10 3 eq_refl)
      as (_ & _ & H & _ & _ & Hlaunch); [lia | lia |].
    specialize (H ltac:(elem_yes)). apply triple_eq in H as (_ & H1 & _).
    split; [exact H1|].
    exact (Hlaunch dev_world (Some 10%Z) None _ _ Hres eq_refl eq_refl).
Defined.

Lemma absolute_starts_with_slash p :
  is_absolute p = true → ∃ rest, p = String "/"%char rest.
Proof.
  unfold is_absolute. destruct p as [|ch rest]; [done|].
  cbn [String.prefix]. destruct (Ascii.ascii_dec "/"%char ch) as [<-|]; [|done].
  eauto.
Qed.

(** C6, counterexample.  [launchEditor('code', 'main.ts', 10)] does not pass
    [main.ts:10] to the editor: with the project root [/proj] the token is
    [/proj/main.ts:10], and wherever path resolution yields absolute paths
    the token never is [main.ts:10]. *)
Lemma launch_hands_over_resolved_path :
  spawned (launchEditor dev_world "code" "main.ts" (Some 10%Z) None
             (Some "/proj")).2
    = [Spawn "code" ["--goto"; "/proj/main.ts:10"] true]
  ∧ spawned (launchEditor dev_world "code" "main.ts" (Some 10%Z) None
               (Some "/proj")).2
    ≠ [Spawn "code" ["--goto"; "main.ts:10"] true]
  ∧ (∀ w projectRoot argv,
       (∀ segments, is_absolute (path_resolve w segments) = true) →
       Spawn "code" argv true
         ∈ (launchEditor w "code" "main.ts" (Some 10%Z) None projectRoot).2 →
       argv ≠ ["--goto"; "main.ts:10"]).
Proof.
  split; [reflexivity|]. split; [by vm_compute|].
  intros w projectRoot argv Habs Hin.
  unfold launchEditor in Hin.
  change (get_editor "code")
    with (Own {| editor_name := "Visual Studio Code"; command := "code";
                 args := args_goto |}) in Hin.
  specialize (Habs (match projectRoot with
                    | Some root =>
                        if JS.string_truthy root then [root; "main.ts"]
                        else ["main.ts"]
                    | None => ["main.ts"]
                    end)).
  assert (∃ rest, resolveFile w projectRoot "main.ts" = String "/"%char rest)
    as [rest Hrest].
  { unfold resolveFile.
    destruct projectRoot as [root|]; [destruct (JS.string_truthy root)|];
      by apply absolute_starts_with_slash. }
  rewrite Hrest in Hin.
  destruct (existsSync w _); cbn [negb] in Hin.
  - cbn [args command] in Hin. destruct (spawn_throws w _ _).
    + repeat (apply elem_of_cons in Hin as [Hin|Hin]; [done|]).
      by apply elem_of_nil in Hin.
    + repeat (apply elem_of_cons in Hin as [Hin|Hin];
              [try done; injection Hin as ->; intros [= Hbad]; done|]).
      by apply elem_of_nil in Hin.
  - repeat (apply elem_of_cons in Hin as [Hin|Hin]; [done|]).
    by apply elem_of_nil in Hin.
Qed.

Lemma truthy_inv (o : option Z) :
  JS.opt_number_truthy o = true → ∃ n, o = Some n ∧ n ≠ 0%Z.
Proof.
  destruct o as [n|]; [|done]. cbn. unfold JS.number_truthy.
  destruct (Z.eqb_spec n 0); [done|]. eauto.
Qed.

Lemma location_token_clean file line column :
  Token.has_colon_zero file = false →
  Token.has_colon_zero (location_token file line column) = false.
Proof.
  intros Hfile. unfold location_token.
  destruct (JS.opt_number_truthy line) eqn:Tl; [|done].
  apply truthy_inv in Tl as (l & -> & Hl).
  pose proof (TokenFacts.colon_number_clean l "" Hl eq_refl) as Hone.
  destruct (JS.opt_number_truthy column) eqn:Tc; cbn [andb default].
  - apply truthy_inv in Tc as (c & -> & Hc). cbn [default].
    pose proof (TokenFacts.colon_number_clean c "" Hc eq_refl) as Hcol.
    rewrite TokenFacts.append_nil_r in Hcol.
    apply TokenFacts.file_suffix_clean; [done|reflexivity|].
    by apply TokenFacts.colon_number_clean.
  - rewrite TokenFacts.append_nil_r in Hone.
    by apply TokenFacts.file_suffix_clean.
Qed.

(** C10.  For the profiles that put the location in one
    [file:line:column] token (code, code-insiders, sublime, atom), a line
    or a column equal to 0 counts as not given: a zero line drops line and
    column, a zero column drops the column.  No token of theirs contains
    [:0] unless the file name itself does. *)
Theorem zero_line_or_column_is_absent key cfg file line column :
  SUPPORTED_EDITORS !! key = Some cfg →
  key ∈ ["code"; "code-insiders"; "sublime"; "atom"] →
  args cfg file (Some 0%Z) column = args cfg file None None
  ∧ args cfg file line (Some 0%Z) = args cfg file line None
  ∧ (Token.has_colon_zero file = false →
     ∀ tok, tok ∈ args cfg file line column → Token.has_colon_zero tok = false).
Proof.
  intros Hkey%registry_lookup Hk. unfold editor_entries in Hkey.
  repeat (apply elem_of_cons in Hkey as [Hkey|Hkey];
          [injection Hkey as -> ->|]); [..|by apply elem_of_nil in Hkey].
  all: try (elem_no Hk).
  all: cbn [args]; unfold args_goto, args_bare.
  all: split; [reflexivity|split].
  all: try (unfold location_token;
            destruct (JS.opt_number_truthy line); reflexivity).
  all: intros Hfile tok Htok.
  all: pose proof (location_token_clean file line column Hfile) as Hloc.
  all: repeat (apply elem_of_cons in Htok as [->|Htok]; [done|]).
  all: by apply elem_of_nil in Htok.
Qed.

Lemma zero_line_or_column_is_absent_witness :
  ∃ code, SUPPORTED_EDITORS !! "code" = Some code
    ∧ args code "main.ts" (Some 10%Z) (Some 0%Z) = ["--goto"; "main.ts:10"]
    ∧ args code "main.ts" (Some 0%Z) (Some 3%Z) = ["--goto"; "main.ts"]
    ∧ Forall (λ tok, Token.has_colon_zero tok = false)
        (args code "main.ts" (Some 10%Z) (Some 0%Z)
         ++ args code "main.ts" (Some 0%Z) (Some 3%Z)).
Proof.
  eexists; split; [reflexivity|].
  destruct (zero_line_or_column_is_absent "code" _ "main.ts"
              (Some 10%Z) (Some 0%Z) eq_refl ltac:(elem_yes))
    as (_ & Hcol & Hclean).
  destruct (zero_line_or_column_is_absent "code" _ "main.ts"
              (Some 0%Z) (Some 3%Z) eq_refl ltac:(elem_yes))
    as (Hline & _ & Hclean').
  split; [exact Hcol|]. split; [exact Hline|].
  apply Forall_app. split; apply Forall_forall; intros tok Htok.
  - by apply Hclean.
  - by apply Hclean'.
Defined.


(** *** Heuristic resolution *)

Lemma find_app {A} (f : A → bool) (l1 l2 : list A) :
  List.find f (l1 ++ l2)
  = match List.find f l1 with
    | Some x => Some x
    | None => List.find f l2
    end.
Proof. induction l1 as [|x l1 IH]; cbn; [done|]. by destruct (f x). Qed.

Lemma through_first_hit_app w l1 l2 :
  through_first_hit w (l1 ++ l2)
  = match List.find (existsSync w) l1 with
    | Some _ => through_first_hit w l1
    | None => l1 ++ through_first_hit w l2
    end.
Proof.
  induction l1 as [|x l1 IH]; cbn; [done|].
  destruct (existsSync w x); [done|]. rewrite IH.
  by destruct (List.find (existsSync w) l1).
Qed.

Lemma through_first_hit_miss w l :
  List.find (existsSync w) l = None → through_first_hit w l = l.
Proof.
  induction l as [|x l IH]; cbn; [done|].
  destruct (existsSync w x); [done|]. intros H. by rewrite IH.
Qed.

(** The first existing element of a list, spelled out. *)
Lemma find_first {A} (f : A → bool) (l : list A) (x : A) :
  List.find f l = Some x
  ↔ ∃ before after, l = before ++ x :: after ∧ f x = true
                    ∧ Forall (λ y, f y = false) before.
Proof.
  induction l as [|y l IH]; cbn.
  - split; [done|]. intros (b & a & E & _). by destruct b.
  - destruct (f y) eqn:Fy.
    + split.
      * intros [= ->]. exists [], l. by repeat split.
      * intros ([|b0 b] & a & E & Fx & Hb).
        -- by injection E as ->.
        -- injection E as -> _. apply Forall_cons in Hb as [Hb _]. congruence.
    + rewrite IH. split.
      * intros (b & a & -> & Fx & Hb). exists (y :: b), a.
        repeat split; [done|]. by constructor.
      * intros ([|b0 b] & a & E & Fx & Hb).
        -- injection E as -> _. congruence.
        -- injection E as -> ->. apply Forall_cons in Hb as [_ Hb]. eauto.
Qed.

Lemma find_nothing {A} (f : A → bool) (l : list A) :
  List.find f l = None ↔ Forall (λ y, f y = false) l.
Proof.
  induction l as [|y l IH]; cbn; [by split|].
  destruct (f y) eqn:Fy.
  - split; [done|]. intros [? _]%Forall_cons. congruence.
  - rewrite IH. split; [by constructor | by intros [_ ?]%Forall_cons].
Qed.

Lemma probe_patterns_spec w projectRoot srcDir pats :
  let paths := map (λ pattern, path_join w [projectRoot; srcDir; pattern]) pats in
  probe_patterns w projectRoot srcDir pats
  = (List.find (existsSync w) paths, through_first_hit w paths).
Proof.
  induction pats as [|pattern pats IH]; cbn; [done|].
  destruct (existsSync w _); [done|].
  cbn in IH. by rewrite IH.
Qed.

Lemma probe_dirs_spec w projectRoot srcDirs pats :
  let paths :=
    srcDirs ≫= λ srcDir,
      map (λ pattern, path_join w [projectRoot; srcDir; pattern]) pats in
  probe_dirs w projectRoot srcDirs pats
  = (List.find (existsSync w) paths, through_first_hit w paths).
Proof.
  induction srcDirs as [|srcDir srcDirs IH]; [done|].
  cbn [probe_dirs]. rewrite probe_patterns_spec. cbn zeta in IH |- *.
  rewrite bind_cons, find_app, through_first_hit_app.
  destruct (List.find _ (map _ pats)) eqn:E; [done|].
  by rewrite IH, (through_first_hit_miss _ _ E).
Qed.

Lemma candidate_paths_patterns w projectRoot searchDirs Name :
  candidate_paths w projectRoot searchDirs Name
  = searchDirs ≫= λ srcDir,
      map (λ pattern, path_join w [projectRoot; srcDir; pattern]) (patterns Name).
Proof. reflexivity. Qed.

(** C8.  A component without source metadata is looked up by name: with
    no usable name the answer is null and nothing is probed; otherwise the
    candidates are probed directory by directory, all eight patterns of one
    directory before the next directory, the answer is the first candidate
    that exists, and null when none does. *)
Theorem resolveComponentFile_first_existing w c projectRoot srcDirs :
  source c = None →
  let Name := JS.or_string (displayName c) (name c) in
  let candidates :=
    candidate_paths w projectRoot
      (default ["src"; "app"; "components"] srcDirs) Name in
  let result := resolveComponentFile w c projectRoot srcDirs in
  (Name = "" → result = (None, []))
  ∧ (Name ≠ "" →
     (∀ p, result.1 = Some p
           ↔ ∃ before after,
               candidates = before ++ p :: after
               ∧ existsSync w p = true
               ∧ Forall (λ q, existsSync w q = false) before)
     ∧ (result.1 = None ↔ Forall (λ q, existsSync w q = false) candidates)
     ∧ result.2 = through_first_hit w candidates).
Proof.
  intros Hsrc Name candidates result.
  assert (getComponentSourceLocation c = None) as Hloc.
  { unfold getComponentSourceLocation. rewrite Hsrc. by destruct (_ || _). }
  assert (result =
          if negb (JS.string_truthy Name) then (None, [])
          else (List.find (existsSync w) candidates,
                through_first_hit w candidates)) as Hres.
  { subst result. unfold resolveComponentFile. rewrite Hloc. cbn zeta.
    fold Name. destruct (negb (JS.string_truthy Name)); [done|].
    subst candidates. rewrite candidate_paths_patterns.
    apply probe_dirs_spec. }
  split.
  - intros E. by rewrite Hres, E.
  - intros Hne. destruct Name as [|ch Name'] eqn:EN; [done|].
    rewrite Hres. cbn [JS.string_truthy negb fst snd].
    split; [|split]; [intros p; apply find_first | apply find_nothing | done].
Qed.

Lemma resolveComponentFile_first_existing_witness :
  resolveComponentFile proj_world UserCard "/proj" (Some ["src"])
    = (Some "/proj/src/UserCard.tsx", ["/proj/src/UserCard.tsx"])
  ∧ (resolveComponentFile proj_world UserCard "/elsewhere" None).1 = None.
Proof.
  destruct (resolveComponentFile_first_existing proj_world UserCard
              "/proj" (Some ["src"]) eq_refl) as [_ H].
  destruct (resolveComponentFile_first_existing proj_world UserCard
              "/elsewhere" None eq_refl) as [_ H'].
  specialize (H ltac:(discriminate)) as (Hsome & _ & Htrace).
  specialize (H' ltac:(discriminate)) as (_ & Hnone & _).
  split.
  - apply injective_projections; [|by rewrite Htrace].
    apply Hsome. exists [], (tail (candidate_paths proj_world "/proj" ["src"] "UserCard")).
    by repeat split.
  - apply Hnone. apply Forall_forall. intros q Hq.
    repeat (apply elem_of_cons in Hq as [->|Hq]; [reflexivity|]).
    by apply elem_of_nil in Hq.
Defined.


(** *** Launching *)

Lemma prototype_keys_unregistered editor :
  editor ∈ object_prototype_keys →
  get_editor editor = Inherited (inherited_name editor).
Proof.
  intros H. unfold get_editor.
  assert (SUPPORTED_EDITORS !! editor = None) as ->.
  { unfold object_prototype_keys in H.
    repeat (apply elem_of_cons in H as [->|H]; [reflexivity|]).
    by apply elem_of_nil in H. }
  by rewrite bool_decide_eq_true_2.
Qed.

(** C7 (the code at the failing input).  With the file resolved against
    the project root when one is given and against the working directory
    otherwise: a key the registry object does not know at all is reported as
    unsupported and nothing else happens; a missing file is reported as not
    found and nothing is spawned; a registered key with an existing file
    starts one detached process with the profile's command and arguments and
    answers by whether the spawn call went through, the child's exit status
    playing no part.  But a key that the registry object inherits from
    [Object.prototype], such as [constructor], gets past the lookup guard:
    the file is probed and the failure is reported as a missing file or as a
    failed launch, never as an unsupported editor. *)
Theorem launchEditor_guards w editor file line column projectRoot resolvedFile :
  resolves_to w projectRoot file resolvedFile →
  let result := launchEditor w editor file line column projectRoot in
  (editor ∈ object_prototype_keys →
     SUPPORTED_EDITORS !! editor = None
     ∧ result
       = (false,
          if existsSync w resolvedFile
          then [Probe resolvedFile;
                Console (FailedToLaunch (inherited_name editor))]
          else [Probe resolvedFile; Console (FileNotFound resolvedFile)]))
  ∧ (SUPPORTED_EDITORS !! editor = None → editor ∉ object_prototype_keys →
     result = (false, [Console (UnsupportedEditor editor)]))
  ∧ (∀ cfg, SUPPORTED_EDITORS !! editor = Some cfg →
       let argv := args cfg resolvedFile line column in
       result
       = if negb (existsSync w resolvedFile)
         then (false, [Probe resolvedFile; Console (FileNotFound resolvedFile)])
         else if spawn_throws w (command cfg) argv
         then (false, [Probe resolvedFile;
                       Console (FailedToLaunch (Some (editor_name cfg)))])
         else (true, [Probe resolvedFile;
                      Spawn (command cfg) argv true;
                      Unref;
                      Console (Opened resolvedFile (editor_name cfg))]))
  ∧ (SUPPORTED_EDITORS !! editor = None ∨ existsSync w resolvedFile = false →
     result.1 = false ∧ spawned result.2 = [])
  ∧ (∀ status,
       launchEditor (with_exit_status w status) editor file line column projectRoot
       = result).
Proof.
  intros Hres%resolveFile_spec result. subst result. unfold launchEditor.
  rewrite Hres.
  split; [|split; [|split; [|split]]].
  - intros Hin. rewrite (prototype_keys_unregistered _ Hin).
    split; [|by destruct (existsSync w resolvedFile)].
    pose proof (prototype_keys_unregistered _ Hin) as E. unfold get_editor in E.
    by destruct (SUPPORTED_EDITORS !! editor).
  - intros Hnone Hnot. unfold get_editor. rewrite Hnone.
    by rewrite bool_decide_eq_false_2.
  - intros cfg Hcfg. cbn zeta. rewrite (get_editor_own _ _ Hcfg).
    by destruct (existsSync w resolvedFile).
  - intros [Hnone|Hmiss].
    + destruct (get_editor_not_own _ Hnone) as [[name E]|E]; rewrite E; [|done].
      by destruct (existsSync w resolvedFile).
    + rewrite Hmiss. by destruct (get_editor editor).
  - intros status. rewrite <- Hres. reflexivity.
Qed.

Lemma launchEditor_guards_witness :
  launchEditor dev_world "constructor" "main.ts" None None (Some "/proj")
    = (false, [Probe "/proj/main.ts"; Console (FailedToLaunch (Some "Object"))])
  ∧ launchEditor dev_world "constructor" "missing.ts" None None (Some "/proj")
    = (false, [Probe "/proj/missing.ts"; Console (FileNotFound "/proj/missing.ts")])
  ∧ launchEditor dev_world "nano" "main.ts" (Some 10%Z) None (Some "/proj")
    = (false, [Console (UnsupportedEditor "nano")])
  ∧ launchEditor dev_world "code" "main.ts" (Some 10%Z) None (Some "/proj")
    = (true, [Probe "/proj/main.ts";
              Spawn "code" ["--goto"; "/proj/main.ts:10"] true;
              Unref;
              Console (Opened "/proj/main.ts" "Visual Studio Code")])
  ∧ launchEditor dev_world "code" "main.ts" (Some 10%Z) None None
    = (false, [Probe "/home/dev/main.ts";
               Console (FileNotFound "/home/dev/main.ts")]).
Proof.
  assert (resolves_to dev_world (Some "/proj") "main.ts" "/proj/main.ts")
    as Hmain by reflexivity.
  assert (resolves_to dev_world (Some "/proj") "missing.ts" "/proj/missing.ts")
    as Hmissing by reflexivity.
  assert (resolves_to dev_world None "main.ts" "/home/dev/main.ts")
    as Hcwd by reflexivity.
  destruct (launchEditor_guards dev_world "constructor" "main.ts" None None
              _ _ Hmain) as (Hproto & _).
  destruct (launchEditor_guards dev_world "constructor" "missing.ts" None None
              _ _ Hmissing) as (Hproto' & _).
  destruct (launchEditor_guards dev_world "nano" "main.ts" (Some 10%Z) None
              _ _ Hmain) as (_ & Hnano & _).
  destruct (launchEditor_guards dev_world "code" "main.ts" (Some 10%Z) None
              _ _ Hmain) as (_ & _ & Hcode & _).
  destruct (launchEditor_guards dev_world "code" "main.ts" (Some 10%Z) None
              _ _ Hcwd) as (_ & _ & Hcode' & _).
  split; [exact (proj2 (Hproto ltac:(elem_yes)))|].
  split; [exact (proj2 (Hproto' ltac:(elem_yes)))|].
  split.
  { apply Hnano; [reflexivity|]. intros Hin. elem_no Hin. }
  split; [exact (Hcode _ eq_refl) | exact (Hcode' _ eq_refl)].
Defined.

(** *** Authoritative source metadata *)

(** C5 (as amended).  A component that carries source metadata gets that
    metadata back from [getComponentSourceLocation], field by field, and
    no filesystem is consulted; [resolveComponentFile] answers with the
    metadata's file name for every world, project root and directory list
    and probes nothing, provided that file name is not the empty string. *)
Theorem authoritative_source_verbatim c src :
  source c = Some src →
  getComponentSourceLocation c
    = Some {| file := fileName src;
              line := Some (lineNumber src);
              column := Some (columnNumber src) |}
  ∧ (fileName src ≠ "" →
     ∀ w projectRoot srcDirs,
       resolveComponentFile w c projectRoot srcDirs = (Some (fileName src), [])).
Proof.
  intros Hsrc.
  assert (getComponentSourceLocation c
          = Some {| file := fileName src;
                    line := Some (lineNumber src);
                    column := Some (columnNumber src) |}) as Hloc.
  { unfold getComponentSourceLocation. by rewrite Hsrc. }
  split; [exact Hloc|].
  intros Hne w projectRoot srcDirs.
  unfold resolveComponentFile. rewrite Hloc. cbn [file].
  by destruct (fileName src).
Qed.

Lemma authoritative_source_verbatim_witness :
  getComponentSourceLocation UserCard_with_source
    = Some {| file := "/proj/src/widgets/Card.tsx";
              line := Some 12%Z; column := Some 3%Z |}
  ∧ resolveComponentFile proj_world UserCard_with_source "/no/such/dir" None
    = (Some "/proj/src/widgets/Card.tsx", []).
Proof.
  destruct (authoritative_source_verbatim UserCard_with_source _ eq_refl)
    as [Hloc Hfile].
  split; [exact Hloc|].
  apply Hfile. discriminate.
Defined.

(** C5, counterexample.  With source metadata whose file name is empty,
    [resolveComponentFile] falls through to the filesystem search: it
    probes the disk and its answer changes with the project root. *)
Lemma blank_fileName_reaches_filesystem :
  source UserCard_blank_source ≠ None
  ∧ resolveComponentFile proj_world UserCard_blank_source "/proj" (Some ["src"])
    = (Some "/proj/src/UserCard.tsx", ["/proj/src/UserCard.tsx"])
  ∧ (resolveComponentFile proj_world UserCard_blank_source "/no/such/dir"
       (Some ["src"])).1 = None
  ∧ ¬ (∀ w projectRoot projectRoot' srcDirs,
         resolveComponentFile w UserCard_blank_source projectRoot srcDirs
         = resolveComponentFile w UserCard_blank_source projectRoot' srcDirs).
Proof.
  split; [done|]. split; [reflexivity|]. split; [reflexivity|].
  intros H.
  specialize (H proj_world "/proj" "/no/such/dir" (Some ["src"])).
  vm_compute in H. discriminate H.
Qed.

End SourceNavigationFacts.

(* ================================================================== *)
(** ** Facts about react-detector.ts *)

Module ReactDetectorFacts.
Import ReactDetector Graphs.

(** *** Stores built from a table of locations *)

Lemma tabulate_keys {A} (f : nat → A) (l : list nat) :
  NoDup l → NoDup (map (λ i, (i, f i)) l).*1.
Proof.
  intros H. assert ((map (λ i, (i, f i)) l).*1 = l) as ->; [|done].
  clear H. induction l as [|x l IH]; cbn; [done|]. by rewrite IH.
Qed.

Lemma tabulate_lookup {A} (f : nat → A) (l : list nat) (i : nat) :
  NoDup l → i ∈ l →
  (list_to_map (map (λ i, (i, f i)) l) : gmap nat A) !! i = Some (f i).
Proof.
  intros Hl Hi. apply elem_of_list_to_map_1; [by apply tabulate_keys|].
  apply list_elem_of_In, in_map_iff. exists i. split; [done|].
  by apply list_elem_of_In.
Qed.

(** *** One step of the walker *)

Lemma fiberToComponent_S rnd g (fuel : nat) f depth :
  fiberToComponent rnd g (S fuel) f depth
  = match deref_fiber g f with
    | None => ret None
    | Some fb =>
        skip <- lift (shouldSkipFiber fb) ;;
        if (skip : bool) then ret None
        else
          id <- generateComponentId rnd fb ;;
          type <- lift (getComponentType fb) ;;
          hooks <- lift (extractHooks fuel g fb) ;;
          children <- extractChildren rnd g fuel (child fb) depth [] ;;
          ret (Some {| id := id;
                       name := getComponentName fb;
                       type := type;
                       displayName := None;
                       props := memoizedProps fb;
                       state := memoizedState fb;
                       hooks := hooks;
                       children := children;
                       fiber := f;
                       source := getComponentSource fb |})
    end.
Proof. reflexivity. Qed.

Lemma extractChildren_S rnd g (fuel : nat) c depth acc :
  extractChildren rnd g (S fuel) c depth acc
  = match deref_fiber g c with
    | None => ret acc
    | Some cf =>
        childComponent <- fiberToComponent rnd g fuel c (depth + 1) ;;
        extractChildren rnd g fuel (sibling cf) depth
          (match childComponent with
           | Some x => acc ++ [x]
           | None => acc
           end)
    end.
Proof. reflexivity. Qed.

(** *** Fuel: a computation that finished keeps its result with more fuel *)

Lemma bind_finished {A B} (m : M A) (k : A → M B) n :
  finished (bind m k n) →
  finished (m n) ∧ ∀ a n', m n = (Done a, n') → finished (k a n').
Proof.
  unfold finished, bind. destruct (m n) as [[a| |] n'] eqn:E; cbn; intros H.
  - split; [done|]. by intros ? ? [= <- <-].
  - split; [done|]. by intros ? ? [=].
  - done.
Qed.

Lemma bind_ext_on {A B} (m m' : M A) (k k' : A → M B) n :
  m' n = m n →
  (∀ a n', m n = (Done a, n') → k' a n' = k a n') →
  bind m' k' n = bind m k n.
Proof.
  intros Hm Hk. unfold bind. rewrite Hm.
  destruct (m n) as [[a| |] n'] eqn:E; auto.
Qed.

Lemma extractHooks_loop_mono g (fuel fuel' : nat) r i acc :
  fuel ≤ fuel' →
  extractHooks_loop fuel g r i acc ≠ OutOfFuel →
  extractHooks_loop fuel' g r i acc = extractHooks_loop fuel g r i acc.
Proof.
  revert fuel' r i acc. induction fuel as [|fuel IH]; intros fuel' r i acc Hle H.
  - done.
  - destruct fuel' as [|fuel']; [lia|]. cbn in *.
    destruct (deref_hook g r) as [node|]; [|done].
    destruct (hn_throws_memoizedState node); [done|].
    destruct (hn_throws_deps node); [done|].
    destruct (hn_throws_next node); [done|].
    apply IH; [lia|done].
Qed.

Lemma extractHooks_mono g (fuel fuel' : nat) fb :
  fuel ≤ fuel' →
  extractHooks fuel g fb ≠ OutOfFuel →
  extractHooks fuel' g fb = extractHooks fuel g fb.
Proof.
  unfold extractHooks. destruct (deref_hook g (memoizedState fb)); [|done].
  apply extractHooks_loop_mono.
Qed.

Lemma lift_finished {A} (o : outcome A) n : finished (lift o n) → o ≠ OutOfFuel.
Proof. unfold finished, lift. cbn. done. Qed.

Lemma walk_mono rnd g (fuel : nat) :
  (∀ (fuel' : nat) f depth n,
      fuel ≤ fuel' →
      finished (fiberToComponent rnd g fuel f depth n) →
      fiberToComponent rnd g fuel' f depth n = fiberToComponent rnd g fuel f depth n)
  ∧ (∀ (fuel' : nat) c depth acc n,
      fuel ≤ fuel' →
      finished (extractChildren rnd g fuel c depth acc n) →
      extractChildren rnd g fuel' c depth acc n
      = extractChildren rnd g fuel c depth acc n).
Proof.
  induction fuel as [|fuel [IHf IHc]].
  - split; intros; exfalso; by apply H0.
  - split.
    + intros [|fuel'] f depth n Hle Hfin; [lia|].
      cbn [fiberToComponent] in *.
      destruct (deref_fiber g f) as [fb|]; [|done].
      apply bind_ext_on; [done|]. intros skip n1 E1.
      apply bind_finished in Hfin as [_ Hfin]. specialize (Hfin _ _ E1).
      destruct skip; [done|].
      apply bind_ext_on; [done|]. intros id n2 E2.
      apply bind_finished in Hfin as [_ Hfin]. specialize (Hfin _ _ E2).
      apply bind_ext_on; [done|]. intros ty n3 E3.
      apply bind_finished in Hfin as [_ Hfin]. specialize (Hfin _ _ E3).
      apply bind_finished in Hfin as [Hh Hfin].
      apply lift_finished in Hh.
      apply bind_ext_on.
      { unfold lift. by rewrite (extractHooks_mono g fuel fuel') by (done || lia). }
      intros hooks n4 E4. specialize (Hfin _ _ E4).
      apply bind_finished in Hfin as [Hc Hfin].
      apply bind_ext_on; [|done].
      apply IHc; [lia|done].
    + intros [|fuel'] c depth acc n Hle Hfin; [lia|].
      cbn [extractChildren] in *.
      destruct (deref_fiber g c) as [cf|]; [|done].
      apply bind_finished in Hfin as [Hc Hfin].
      apply bind_ext_on; [apply IHf; [lia|done]|].
      intros cc n1 E1. specialize (Hfin _ _ E1).
      apply IHc; [lia|done].
Qed.


(** *** Two walks of the same graph *)

Lemma alike_bind {A B} (R : A → A → Prop) (R' : B → B → Prop)
    (m1 m2 : M A) (k1 k2 : A → M B) n1 n2 :
  alike R (m1 n1) (m2 n2) →
  (∀ a b n1' n2', R a b → alike R' (k1 a n1') (k2 b n2')) →
  alike R' (bind m1 k1 n1) (bind m2 k2 n2).
Proof.
  unfold alike, bind. intros Hm Hk.
  destruct (m1 n1) as [[a| |] n1'], (m2 n2) as [[b| |] n2']; cbn in *;
    try done.
  by apply Hk.
Qed.

Lemma alike_lift {A} (o : outcome A) n1 n2 : alike eq (lift o n1) (lift o n2).
Proof. unfold alike, lift. cbn. by destruct o. Qed.

Lemma alike_id rnd1 rnd2 fb n1 n2 :
  alike (λ _ _, True) (generateComponentId rnd1 fb n1)
                      (generateComponentId rnd2 fb n2).
Proof. done. Qed.

Lemma walk_alike rnd1 rnd2 g (fuel : nat) :
  (∀ f depth n1 n2,
      alike (λ a b, shape_of <$> a = shape_of <$> b)
            (fiberToComponent rnd1 g fuel f depth n1)
            (fiberToComponent rnd2 g fuel f depth n2))
  ∧ (∀ c depth acc1 acc2 n1 n2,
      same_shapes acc1 acc2 →
      alike same_shapes
            (extractChildren rnd1 g fuel c depth acc1 n1)
            (extractChildren rnd2 g fuel c depth acc2 n2)).
Proof.
  induction fuel as [|fuel [IHf IHc]]; [by split|].
  split.
  - intros f depth n1 n2. cbn [fiberToComponent].
    destruct (deref_fiber g f) as [fb|]; [|done].
    eapply alike_bind; [apply alike_lift|]. intros skip ? m1 m2 <-.
    destruct skip; [done|].
    eapply alike_bind; [apply alike_id|]. intros id1 id2 m3 m4 _.
    eapply alike_bind; [apply alike_lift|]. intros ty ? m5 m6 <-.
    eapply alike_bind; [apply alike_lift|]. intros hs ? m7 m8 <-.
    eapply alike_bind; [by apply IHc|]. intros k1 k2 m9 m10 Hk.
    unfold alike, ret. cbn. by rewrite Hk.
  - intros c depth acc1 acc2 n1 n2 Hacc. cbn [extractChildren].
    destruct (deref_fiber g c) as [cf|]; [|done].
    eapply alike_bind; [apply IHf|]. intros a b m1 m2 Hab.
    apply IHc. unfold same_shapes in *.
    destruct a as [a|], b as [b|]; try done.
    rewrite !map_app, Hacc. cbn. by injection Hab as ->.
Qed.

Lemma alike_forest_shape r1 r2 :
  alike same_shapes r1 r2 → forest_shape r1 = forest_shape r2.
Proof.
  unfold alike, forest_shape, same_shapes.
  destruct r1 as [[a| |] ?], r2 as [[b| |] ?]; cbn; try done.
  by intros ->.
Qed.

(** C9.  Two extractions of the same unchanged graph, whatever texts
    [Math.random] contributes to the ids in either run, end in the same
    way and, when they produce a forest, produce the same names, types and
    child order at every position. *)
Theorem extraction_deterministic_modulo_ids
    (rnd1 rnd2 : nat → string) g (fuel : nat) renderer (n1 n2 : nat) :
  forest_shape (getComponentTree rnd1 g fuel renderer n1)
  = forest_shape (getComponentTree rnd2 g fuel renderer n2).
Proof.
  apply alike_forest_shape.
  unfold getComponentTree.
  destruct renderer as [[[currentFiber|]]|]; [|done..].
  assert (alike same_shapes
            (getComponentTree_body rnd1 g fuel currentFiber n1)
            (getComponentTree_body rnd2 g fuel currentFiber n2)) as H.
  { unfold getComponentTree_body.
    destruct currentFiber as [r|]; [|done].
    destruct (fibers g !! r) as [rootFiber|]; [|done].
    eapply alike_bind; [apply alike_lift|]. intros current ? m1 m2 <-.
    destruct (deref_fiber g (child current)); [|done].
    eapply alike_bind; [apply (walk_alike rnd1 rnd2 g fuel)|].
    intros a b m3 m4 Hab. destruct a, b; try done.
    unfold alike, ret, same_shapes. cbn. by injection Hab as ->. }
  unfold alike, try_catch in *. cbn [getCurrentFiber].
  destruct (getComponentTree_body rnd1 g fuel currentFiber n1) as [[a| |] ?],
           (getComponentTree_body rnd2 g fuel currentFiber n2) as [[b| |] ?];
    cbn in *; done.
Qed.

(** The ids of the two runs do differ, and the forest is the expected one. *)
Example two_runs_of_plain_app :
  forest_shape (getComponentTree rnd_fixed plain_app 20 (renderer_at 3) 0)
    = Done [branch "App" [leaf "Counter"; leaf "UserList"]]
  ∧ outcome_map (map id) (getComponentTree rnd_fixed plain_app 20 (renderer_at 3) 0).1
    = Done ["App__0_k3x9q2m1a"]
  ∧ outcome_map (map id) (getComponentTree rnd_other plain_app 20 (renderer_at 3) 0).1
    = Done ["App__0_z0"].
Proof. by vm_compute. Qed.


(** *** Skipped fibers *)

Lemma marker_kinds_are_skipped ret c s :
  Forall (λ kind, shouldSkipFiber (node (marker kind) ret c s) = Done true)
    ["react.strict_mode"; "react.profiler"; "react.suspense"; "react.fragment"].
Proof. repeat constructor. Qed.

(** C1 (the code at the failing input).  A fiber that [shouldSkipFiber]
    classifies as an internal marker makes [fiberToComponent] return null
    at once, whatever hangs below it: under App, the wrapper's child Inner
    is missing from the snapshot while its sibling Other is kept, and an
    application wrapped as a whole yields an empty forest. *)
Theorem skipped_fiber_drops_its_subtree :
  (∀ rnd g l fb (fuel depth n : nat),
      fibers g !! l = Some fb →
      shouldSkipFiber fb = Done true →
      fiberToComponent rnd g (S fuel) (Some l) depth n = (Done None, n))
  ∧ (∀ rnd (n : nat),
      forest_shape (getComponentTree rnd wrapped_child 20 (renderer_at 3) n)
      = Done [branch "App" [leaf "Other"]])
  ∧ (∀ rnd (n : nat),
      forest_shape (getComponentTree rnd wrapped_app 20 (renderer_at 3) n)
      = Done []).
Proof.
  split; [|split].
  - intros rnd g l fb fuel depth n Hl Hskip.
    rewrite fiberToComponent_S. cbn [deref_fiber mbind option_bind].
    rewrite Hl. unfold bind, lift. by rewrite Hskip.
  - intros rnd n. by vm_compute.
  - intros rnd n. by vm_compute.
Qed.

Lemma skipped_fiber_drops_its_subtree_witness :
  fiberToComponent rnd_fixed wrapped_app 20 (Some 1) 0 0 = (Done None, 0).
Proof.
  destruct skipped_fiber_drops_its_subtree as (H & _ & _).
  apply (H rnd_fixed wrapped_app 1
           (node (marker "react.strict_mode") (Some 0) (Some 2) None));
    reflexivity.
Defined.

(** *** Hook chains *)

(** Whenever the decoder returns, every record sits at the position its
    [id] names. *)
Lemma extractHooks_loop_ids g (fuel : nat) r i acc hooks :
  extractHooks_loop fuel g r i acc = Done hooks →
  i = Z.of_nat (length acc) →
  map hook_id acc = map Z.of_nat (seq 0 (length acc)) →
  map hook_id hooks = map Z.of_nat (seq 0 (length hooks)).
Proof.
  revert r i acc. induction fuel as [|fuel IH]; intros r i acc; [done|].
  cbn [extractHooks_loop].
  destruct (deref_hook g r) as [hn|]; [|by intros [= <-]].
  destruct (hn_throws_memoizedState hn); [by intros [= <-]|].
  destruct (hn_throws_deps hn); [by intros [= <-]|].
  intros Hrun Hi Hacc.
  assert (map hook_id (acc ++ [{| hook_id := i;
                                  hook_name := getHookName i;
                                  hook_type := getHookType hn;
                                  hook_value := hn_memoizedState hn;
                                  hook_deps := mjoin (hn_deps hn) |}])
          = map Z.of_nat (seq 0 (length (acc ++ [{| hook_id := i;
                                  hook_name := getHookName i;
                                  hook_type := getHookType hn;
                                  hook_value := hn_memoizedState hn;
                                  hook_deps := mjoin (hn_deps hn) |}]))))
    as Hacc'.
  { rewrite length_app, map_app, Nat.add_1_r, seq_S, map_app, Hacc.
    cbn. by rewrite Hi. }
  destruct (hn_throws_next hn); [by injection Hrun as <-|].
  eapply IH; [exact Hrun| |exact Hacc'].
  rewrite length_app. cbn. lia.
Qed.

Lemma extractHooks_ids g (fuel : nat) fb hooks :
  extractHooks fuel g fb = Done hooks →
  map hook_id hooks = map Z.of_nat (seq 0 (length hooks)).
Proof.
  unfold extractHooks. destruct (deref_hook g (memoizedState fb)).
  - intros H. by eapply extractHooks_loop_ids.
  - by intros [= <-].
Qed.

Lemma hook_cycle_never_ends (fuel : nat) i acc :
  extractHooks_loop fuel hook_cycle_graph (Some 1) i acc = OutOfFuel.
Proof.
  revert i acc. induction fuel as [|fuel IH]; intros i acc; [done|].
  cbn [extractHooks_loop].
  change (deref_hook hook_cycle_graph (Some 1)) with (Some (state_hook 7 (Some 1))).
  cbn [hn_throws_memoizedState hn_throws_deps hn_throws_next state_hook hn_next].
  apply IH.
Qed.

Lemma hook_chain_lookup (k i : nat) :
  1 ≤ i ≤ k →
  hookNodes (hook_chain_graph k) !! i
  = Some (state_hook i (if decide (i < k) then Some (S i) else None)).
Proof.
  intros Hi. unfold hook_chain_graph, graph_of. cbn [hookNodes].
  apply (tabulate_lookup
           (λ i, state_hook i (if decide (i < k) then Some (S i) else None))).
  - apply NoDup_seq.
  - apply elem_of_seq. lia.
Qed.

Lemma hook_chain_walk (k m : nat) :
  ∀ (i : nat) idx acc, 1 ≤ i → i + m = k →
    ∃ hooks, extractHooks_loop (S (S m)) (hook_chain_graph k) (Some i) idx acc
             = Done hooks
             ∧ length hooks = length acc + S m.
Proof.
  induction m as [|m IH]; intros i idx acc Hi Hk.
  - cbn [extractHooks_loop deref_hook mbind option_bind].
    rewrite hook_chain_lookup by lia. rewrite decide_False by lia.
    cbn. eexists. split; [done|]. by rewrite length_app.
  - remember (S (S m)) as fuel. cbn [extractHooks_loop deref_hook mbind option_bind].
    rewrite hook_chain_lookup by lia. rewrite decide_True by lia.
    cbn [state_hook hn_throws_memoizedState hn_throws_deps hn_throws_next hn_next].
    subst fuel.
    edestruct (IH (S i)) as (hooks & E & Hlen); [lia..|].
    exists hooks. split; [exact E|].
    rewrite Hlen, length_app. cbn. lia.
Qed.

(** C2 (the code at the failing inputs).  [extractHooks] walks the chain
    with no ceiling on the number of records: a chain of [k] nodes yields
    [k] records, numbered from 0, for every [k] (so 51 records for 51
    nodes), and on a chain that loops back on itself the loop never ends,
    whatever the number of steps allowed. *)
Theorem extractHooks_has_no_ceiling :
  (∀ k fuel : nat, 1 ≤ k → k + 1 ≤ fuel →
      ∃ hooks, extractHooks fuel (hook_chain_graph k) Form = Done hooks
               ∧ length hooks = k
               ∧ map hook_id hooks = map Z.of_nat (seq 0 k))
  ∧ (∀ fuel : nat, extractHooks fuel hook_cycle_graph Form = OutOfFuel).
Proof.
  split.
  - intros k fuel Hk Hfuel.
    destruct (hook_chain_walk k (k - 1) 1 0%Z []) as (hooks & E & Hlen);
      [lia..|].
    assert (extractHooks (S (S (k - 1))) (hook_chain_graph k) Form = Done hooks)
      as E'.
    { unfold extractHooks. cbn [Form with_hooks memoizedState].
      cbn [deref_hook mbind option_bind]. by rewrite hook_chain_lookup by lia. }
    exists hooks.
    rewrite (extractHooks_mono _ (S (S (k - 1))) fuel) by (lia || by rewrite E').
    assert (length hooks = k) as Hl by (cbn [length] in Hlen; lia).
    split; [done|]. split; [done|].
    pose proof (extractHooks_ids _ _ _ _ E') as Hids.
    by rewrite Hl in Hids.
  - intros fuel. unfold extractHooks.
    change (deref_hook hook_cycle_graph (memoizedState Form))
      with (Some (state_hook 7 (Some 1))).
    apply hook_cycle_never_ends.
Qed.

Lemma extractHooks_has_no_ceiling_witness :
  ∃ hooks, extractHooks 60 (hook_chain_graph 51) Form = Done hooks
           ∧ 50 < length hooks.
Proof.
  destruct extractHooks_has_no_ceiling as [H _].
  destruct (H 51 60 ltac:(lia) ltac:(lia)) as (hooks & E & Hlen & _).
  exists hooks. split; [exact E | lia].
Defined.

(** *** Depth, cycles and aliasing *)

Lemma sibling_cycle_item rnd (fuel depth n : nat) :
  (fiberToComponent rnd sibling_cycle_graph fuel (Some 2) depth n).1 ≠ Thrown.
Proof.
  destruct fuel as [|[|fuel]]; [done| by vm_compute |].
  by vm_compute.
Qed.

Lemma sibling_cycle_loop rnd (fuel depth : nat) acc (n : nat) :
  (extractChildren rnd sibling_cycle_graph fuel (Some 2) depth acc n).1
  = OutOfFuel.
Proof.
  revert depth acc n. induction fuel as [|fuel IH]; intros depth acc n; [done|].
  rewrite extractChildren_S.
  change (deref_fiber sibling_cycle_graph (Some 2))
    with (Some (node (fn "Item") (Some 1) None (Some 2))).
  cbn [sibling node]. unfold bind at 1.
  pose proof (sibling_cycle_item rnd fuel (depth + 1) n) as Hitem.
  destruct (fiberToComponent rnd sibling_cycle_graph fuel (Some 2) (depth + 1) n)
    as [[c| |] n']; [apply IH | done | done].
Qed.


Lemma height_unfold c :
  height c = S (foldr Nat.max 0 (map height (children c))).
Proof. by destruct c. Qed.

Lemma nested_lookup (k i : nat) :
  1 ≤ i ≤ k → fibers (nested_graph k) !! i = Some (level k i).
Proof.
  intros Hi. unfold nested_graph, graph_of. cbn [fibers].
  apply (tabulate_lookup (level k)).
  - apply NoDup_seq.
  - apply elem_of_seq. lia.
Qed.

(** A plain function component: its walk is the walk of its children. *)
Lemma fn_node_walk rnd g (fuel : nat) l nm up c sib depth n :
  fibers g !! l = Some (node (fn nm) up c sib) →
  ∃ mk : list ReactComponent → ReactComponent,
    (∀ kids, children (mk kids) = kids)
    ∧ fiberToComponent rnd g (S fuel) (Some l) depth n
      = bind (extractChildren rnd g fuel c depth [])
             (λ kids, ret (Some (mk kids))) (S n).
Proof.
  intros Hl. rewrite fiberToComponent_S.
  cbn [deref_fiber mbind option_bind]. rewrite Hl.
  eexists (λ kids, {| children := kids |}). split; [done|].
  reflexivity.
Qed.

Lemma nested_walk rnd (k m : nat) :
  ∀ i depth n, 1 ≤ i → i + m = k →
    ∃ c n', fiberToComponent rnd (nested_graph k) (2 * m + 3) (Some i) depth n
            = (Done (Some c), n')
            ∧ height c = S m.
Proof.
  induction m as [|m IH]; intros i depth n Hi Hk.
  - destruct (fn_node_walk rnd (nested_graph k) 2 i "Level"
                (if decide (1 < i) then Some (pred i) else None)
                (if decide (i < k) then Some (S i) else None) None depth n)
      as (mk & Hmk & E).
    { apply nested_lookup. lia. }
    rewrite decide_False in E by lia.
    exists (mk []), (S n). split; [exact E|].
    by rewrite height_unfold, Hmk.
  - destruct (fn_node_walk rnd (nested_graph k) (2 * S m + 2) i "Level"
                (if decide (1 < i) then Some (pred i) else None)
                (if decide (i < k) then Some (S i) else None) None depth n)
      as (mk & Hmk & E).
    { apply nested_lookup. lia. }
    rewrite decide_True in E by lia.
    destruct (IH (S i) (depth + 1) (S n)) as (cc & n' & Ecc & Hcc); [lia..|].
    exists (mk [cc]), n'. split.
    + replace (2 * S m + 3) with (S (2 * S m + 2)) by lia.
      etrans; [exact E|].
      replace (2 * S m + 2) with (S (2 * m + 3)) by lia.
      rewrite extractChildren_S.
      cbn [deref_fiber mbind option_bind]. rewrite nested_lookup by lia.
      unfold bind at 1 2. rewrite Ecc.
      replace (2 * m + 3) with (S (2 * m + 2)) by lia.
      rewrite extractChildren_S. reflexivity.
    + rewrite height_unfold, Hmk. cbn. rewrite Hcc. lia.
Qed.

(** C3 (the code at the failing inputs).  [fiberToComponent] carries
    [depth] along and never compares it with anything: [k] components
    nested one inside the other come out as a snapshot [k] levels deep,
    for every [k]; a fiber that is its own next sibling keeps the children
    loop running for ever; and a fiber shared by two parents is
    materialised once per parent, so four fibers yield five snapshot
    nodes. *)
Theorem fiberToComponent_has_no_depth_bound :
  (∀ rnd (k fuel n : nat), 1 ≤ k → 2 * k + 1 ≤ fuel →
      ∃ c n', fiberToComponent rnd (nested_graph k) fuel (Some 1) 0 n
              = (Done (Some c), n')
              ∧ height c = k)
  ∧ (∀ rnd (fuel n : nat),
      (fiberToComponent rnd sibling_cycle_graph fuel (Some 1) 0 n).1 = OutOfFuel)
  ∧ (∀ rnd (fuel n : nat), 20 ≤ fuel →
      ∃ c n', fiberToComponent rnd aliased_graph fuel (Some 1) 0 n
              = (Done (Some c), n')
              ∧ node_count c = 5
              ∧ size (fibers aliased_graph) = 4).
Proof.
  split; [|split].
  - intros rnd k fuel n Hk Hfuel.
    destruct (nested_walk rnd k (k - 1) 1 0 n) as (c & n' & E & Hh); [lia..|].
    exists c, n'. split; [|lia].
    rewrite (proj1 (walk_mono rnd _ (2 * (k - 1) + 3))); [done|lia|].
    unfold finished. by rewrite E.
  - intros rnd [|fuel] n; [done|].
    rewrite fiberToComponent_S.
    change (deref_fiber sibling_cycle_graph (Some 1))
      with (Some (node (fn "App") None (Some 2) None)).
    unfold bind at 1, lift at 1. cbn [shouldSkipFiber node fiber_type fn].
    unfold bind at 1. cbn [generateComponentId].
    unfold bind at 1, lift at 1.
    cbn [getComponentType node fiber_type fn type_truthy negb
           fn_isReactComponent fn_typeof].
    unfold bind at 1, lift at 1. unfold extractHooks at 1.
    cbn [node memoizedState deref_hook mbind option_bind].
    unfold bind at 1. cbn [child node].
    pose proof (sibling_cycle_loop rnd fuel 0 [] (S n)) as H.
    destruct (extractChildren rnd sibling_cycle_graph fuel (Some 2) 0 [] (S n))
      as [[?| |] ?]; done.
  - intros rnd fuel n Hfuel.
    assert (∃ c n', fiberToComponent rnd aliased_graph 20 (Some 1) 0 n
                    = (Done (Some c), n') ∧ node_count c = 5)
      as (c & n' & E & Hc).
    { do 2 eexists. split; vm_compute; reflexivity. }
    exists c, n'. split; [|split; [done|by vm_compute]].
    rewrite (proj1 (walk_mono rnd _ 20)); [done|done|].
    unfold finished. by rewrite E.
Qed.

Lemma fiberToComponent_has_no_depth_bound_witness :
  ∃ c n', fiberToComponent rnd_fixed (nested_graph 41) 120 (Some 1) 0 0
          = (Done (Some c), n')
          ∧ 40 < height c.
Proof.
  destruct fiberToComponent_has_no_depth_bound as [H _].
  destruct (H rnd_fixed 41 120 0 ltac:(lia) ltac:(lia)) as (c & n' & E & Hh).
  exists c, n'. split; [exact E | lia].
Defined.

(** *** Throws *)

Lemma extractHooks_loop_never_throws g (fuel : nat) r i acc :
  extractHooks_loop fuel g r i acc ≠ Thrown.
Proof.
  revert r i acc. induction fuel as [|fuel IH]; intros r i acc; [done|].
  cbn [extractHooks_loop].
  destruct (deref_hook g r) as [hn|]; [|done].
  destruct (hn_throws_memoizedState hn); [done|].
  destruct (hn_throws_deps hn); [done|].
  destruct (hn_throws_next hn); [done|]. apply IH.
Qed.

Lemma extractHooks_never_throws g (fuel : nat) fb :
  extractHooks fuel g fb ≠ Thrown.
Proof.
  unfold extractHooks. destruct (deref_hook g (memoizedState fb)); [|done].
  apply extractHooks_loop_never_throws.
Qed.

(** The loop keeps what it gathered and adds one record per decoded node. *)
Lemma extractHooks_loop_decoded g r nodes :
  decoded_chain g r nodes →
  ∀ (fuel i : nat) acc,
    length nodes < fuel →
    extractHooks_loop fuel g r (Z.of_nat i) acc
    = Done (acc ++ imap (λ k, hook_record (i + k)) nodes).
Proof.
  induction 1 as [r Hr|r hn Hr Hearly|r hn Hr Hearly Hnext
                  |r hn rest Hr Hearly Hnext Hrest IH];
    intros [|fuel] i acc Hfuel; cbn [length] in Hfuel; try lia;
    cbn [extractHooks_loop]; rewrite Hr.
  - by rewrite List.app_nil_r.
  - apply orb_true_iff in Hearly as [->| ->]; rewrite ?List.app_nil_r; [done|].
    by destruct (hn_throws_memoizedState hn).
  - apply orb_false_iff in Hearly as [-> ->]. rewrite Hnext.
    cbn [imap]. by rewrite Nat.add_0_r.
  - apply orb_false_iff in Hearly as [-> ->]. rewrite Hnext.
    replace (Z.of_nat i + 1)%Z with (Z.of_nat (S i)) by lia.
    rewrite IH by lia. rewrite <- List.app_assoc. cbn [imap app].
    rewrite Nat.add_0_r. do 3 f_equal.
    apply imap_ext. intros k hn' _. cbn. f_equal. lia.
Qed.

Lemma extractHooks_decoded g (fuel : nat) fb nodes :
  decoded_chain g (memoizedState fb) nodes →
  length nodes < fuel →
  extractHooks fuel g fb = Done (imap hook_record nodes).
Proof.
  intros Hchain Hfuel. unfold extractHooks.
  destruct (deref_hook g (memoizedState fb)) as [hn|] eqn:Hd.
  - exact (extractHooks_loop_decoded g _ _ Hchain fuel 0 [] Hfuel).
  - inversion Hchain; [done|congruence..].
Qed.

(** C4 (as amended).  [getComponentTree] never lets a throw escape.  The
    walk itself has no handler: a throw while a child is read ends the loop
    over its siblings and discards the children gathered so far, and when
    the walk from the root container's first child throws, the answer is
    the empty forest.  Only the hook decoder catches its own throws: it
    returns the records of the nodes decoded before the throw (including
    the node at hand when the throw comes from reading its [next]), and the
    component is materialised with these records. *)
Theorem getComponentTree_catches_once
    (rnd : nat → string) g (fuel : nat) renderer (n : nat) :
  let result := getComponentTree rnd g fuel renderer n in
  result.1 ≠ Thrown
  ∧ (∀ r rootFiber current n',
       renderer = renderer_at r →
       fibers g !! r = Some rootFiber →
       climb g fuel rootFiber = Done current →
       fiberToComponent rnd g fuel (child current) 0 n = (Thrown, n') →
       result = (Done [], n'))
  ∧ (∀ c cf depth acc m m',
       deref_fiber g c = Some cf →
       fiberToComponent rnd g fuel c (depth + 1) m = (Thrown, m') →
       extractChildren rnd g (S fuel) c depth acc m = (Thrown, m'))
  ∧ (∀ fb, extractHooks fuel g fb ≠ Thrown)
  ∧ (∀ fb nodes,
       decoded_chain g (memoizedState fb) nodes →
       length nodes < fuel →
       extractHooks fuel g fb = Done (imap hook_record nodes))
  ∧ (∀ l fb ty nodes kids depth m m',
       fibers g !! l = Some fb →
       shouldSkipFiber fb = Done false →
       getComponentType fb = Done ty →
       decoded_chain g (memoizedState fb) nodes →
       length nodes < fuel →
       extractChildren rnd g fuel (child fb) depth [] (S m) = (Done kids, m') →
       ∃ ident,
         generateComponentId rnd fb m = (Done ident, S m)
         ∧ fiberToComponent rnd g (S fuel) (Some l) depth m
           = (Done (Some {| id := ident;
                            name := getComponentName fb;
                            type := ty;
                            displayName := None;
                            props := memoizedProps fb;
                            state := memoizedState fb;
                            hooks := imap hook_record nodes;
                            children := kids;
                            fiber := Some l;
                            source := None |}), m')).
Proof.
  intros result. subst result. split; [|split; [|split; [|split; [|split]]]].
  - unfold getComponentTree.
    destruct renderer as [[[currentFiber|]]|]; [|done..].
    cbn [getCurrentFiber]. unfold try_catch.
    by destruct (getComponentTree_body rnd g fuel currentFiber n) as [[?| |] ?].
  - intros r rootFiber current n' -> Hr Hclimb Hthrow.
    unfold getComponentTree, renderer_at. cbn [getCurrentFiber].
    unfold try_catch, getComponentTree_body. rewrite Hr.
    unfold bind at 1, lift at 1. rewrite Hclimb.
    destruct (deref_fiber g (child current)) as [cf|] eqn:Hc.
    + unfold bind. by rewrite Hthrow.
    + destruct fuel as [|fuel']; [done|].
      rewrite fiberToComponent_S, Hc in Hthrow. done.
  - intros c cf depth acc m m' Hc Hthrow.
    rewrite extractChildren_S, Hc. unfold bind. by rewrite Hthrow.
  - apply extractHooks_never_throws.
  - intros fb nodes. apply extractHooks_decoded.
  - intros l fb ty nodes kids depth m m' Hl Hskip Hty Hchain Hfuel Hkids.
    eexists. split; [reflexivity|].
    rewrite fiberToComponent_S. cbn [deref_fiber mbind option_bind].
    rewrite Hl. unfold bind at 1, lift at 1. rewrite Hskip.
    unfold bind at 1. cbn [generateComponentId].
    unfold bind at 1, lift at 1. rewrite Hty.
    unfold bind at 1, lift at 1.
    rewrite (extractHooks_decoded g fuel fb nodes Hchain Hfuel).
    unfold bind at 1. by rewrite Hkids.
Qed.

Lemma getComponentTree_catches_once_witness :
  getComponentTree rnd_fixed one_bad_node 20 (renderer_at 2) 0 = (Done [], 3)
  ∧ (∃ Form records,
       fibers third_hook_unreadable !! 1 = Some Form
       ∧ extractHooks 20 third_hook_unreadable Form = Done records
       ∧ map hook_id records = [0%Z; 1%Z]
       ∧ map hook_type records = [useState; useEffect]
       ∧ ∃ c, fiberToComponent rnd_fixed third_hook_unreadable 21 (Some 1) 0 0
              = (Done (Some c), 1)
              ∧ hooks c = records)
  ∧ (∃ Form records,
       fibers second_next_unreadable !! 1 = Some Form
       ∧ extractHooks 20 second_next_unreadable Form = Done records
       ∧ map hook_id records = [0%Z; 1%Z]
       ∧ map hook_type records = [useState; useEffect]).
Proof.
  destruct (getComponentTree_catches_once rnd_fixed one_bad_node 20
              (renderer_at 2) 0) as (_ & H & _).
  destruct (getComponentTree_catches_once rnd_fixed third_hook_unreadable 20
              (renderer_at 1) 0) as (_ & _ & _ & _ & Hthird & Hnode).
  destruct (getComponentTree_catches_once rnd_fixed second_next_unreadable 20
              (renderer_at 1) 0) as (_ & _ & _ & _ & Hsecond & _).
  set (Form := with_hooks (node (fn "Form") (Some 0) None None) (Some 1)).
  assert (decoded_chain third_hook_unreadable (memoizedState Form)
            [state_hook 10 (Some 2); effect_hook 11 12 (Some 3)]) as Hchain.
  { eapply decoded_step; [reflexivity..|].
    eapply decoded_step; [reflexivity..|].
    eapply decoded_unread; reflexivity. }
  assert (decoded_chain second_next_unreadable (memoizedState Form)
            [state_hook 10 (Some 2);
             unreadable_next (effect_hook 11 12 (Some 3))]) as Hchain'.
  { eapply decoded_step; [reflexivity..|].
    eapply decoded_last; reflexivity. }
  split; [eapply (H 2); reflexivity|]. split.
  - exists Form. eexists. split; [reflexivity|].
    split; [exact (Hthird Form _ Hchain ltac:(cbn; lia))|].
    split; [reflexivity|]. split; [reflexivity|].
    destruct (Hnode 1 Form CFunction _ [] 0 0 1 eq_refl eq_refl eq_refl Hchain
                ltac:(cbn; lia) eq_refl) as (ident & _ & Hc).
    eexists. split; [exact Hc|reflexivity].
  - exists Form. eexists. split; [reflexivity|].
    split; [exact (Hsecond Form _ Hchain' ltac:(cbn; lia))|].
    split; reflexivity.
Defined.

(** C4, counterexample.  App has the children Good, Bad and Later, and
    reading Bad throws.  Treating Bad as skipped without children would
    give App with Good and Later; the extraction gives nothing at all. *)
Lemma one_bad_node_empties_the_forest :
  forest_shape (getComponentTree rnd_fixed one_bad_node 20 (renderer_at 2) 0)
    = Done []
  ∧ forest_shape (getComponentTree rnd_fixed one_bad_node_skipped 20 (renderer_at 2) 0)
    = Done [branch "App" [leaf "Good"; leaf "Later"]]
  ∧ forest_shape (getComponentTree rnd_fixed one_bad_node 20 (renderer_at 2) 0)
    ≠ forest_shape (getComponentTree rnd_fixed one_bad_node_skipped 20 (renderer_at 2) 0).
Proof. by vm_compute. Qed.

End ReactDetectorFacts.


(* ================================================================== *)
(** ** More facts about react-detector.ts *)

Module ReactDetectorRestFacts.
Import ReactDetector ReactDetectorRest Graphs ReactDetectorFacts.

(** Induction on a snapshot tree, with the hypothesis for all children. *)
Lemma component_ind (P : ReactComponent → Prop) :
  (∀ c, Forall P (children c) → P c) → ∀ c, P c.
Proof.
  intros H. fix IH 1. intros c. apply H.
  destruct c as [? ? ? ? ? ? ? kids ? ?]. cbn.
  induction kids as [|k kids IHk]; constructor; [apply IH | exact IHk].
Qed.

Lemma find_concat {A} (f : A → bool) (ls : list (list A)) :
  List.find f (concat ls)
  = (fix go ls := match ls with
                  | [] => None
                  | l :: rest => match List.find f l with
                                 | Some x => Some x
                                 | None => go rest
                                 end
                  end) ls.
Proof.
  induction ls as [|l ls IH]; [done|]. cbn [concat].
  rewrite SourceNavigationFacts.find_app, IH. done.
Qed.

Lemma loop_find target kids :
  Forall (λ c, findComponentById_visit target c
               = List.find (λ x, String.eqb (id x) target) (nodes c)) kids →
  findComponentById_loop (findComponentById_visit target) kids
  = List.find (λ x, String.eqb (id x) target) (forest_nodes kids).
Proof.
  unfold forest_nodes. intros H. rewrite find_concat.
  induction H as [|c kids Hc _ IH]; [done|].
  cbn [findComponentById_loop map]. rewrite Hc, IH. done.
Qed.

Lemma visit_find target c :
  findComponentById_visit target c
  = List.find (λ x, String.eqb (id x) target) (nodes c).
Proof.
  induction c as [c IH] using component_ind.
  destruct c as [i nm ty dn pr st hk kids fb src]. cbn in IH.
  cbn [findComponentById_visit nodes List.find id children].
  destruct (String.eqb i target); [done|].
  by apply loop_find.
Qed.

(** X1.  [findComponentById] returns the first component, parents before
    children and siblings left to right, whose id is the one asked for: what
    it returns carries that id and belongs to the forest, and it returns
    null exactly when no component of the forest has that id. *)
Theorem findComponentById_first_match tree target :
  findComponentById tree target
    = List.find (λ c, String.eqb (id c) target) (forest_nodes tree)
  ∧ (∀ c, findComponentById tree target = Some c →
          id c = target ∧ c ∈ forest_nodes tree)
  ∧ (findComponentById tree target = None
     ↔ ∀ c, c ∈ forest_nodes tree → id c ≠ target).
Proof.
  assert (findComponentById tree target
          = List.find (λ c, String.eqb (id c) target) (forest_nodes tree)) as E.
  { apply loop_find, Forall_forall. intros c _. apply visit_find. }
  split; [exact E|]. rewrite E. split.
  - intros c Hc. apply find_some in Hc as [Hin Hid].
    split; [by apply String.eqb_eq | by apply list_elem_of_In].
  - split.
    + intros Hnone c Hin Hid. apply list_elem_of_In in Hin.
      pose proof (find_none _ _ Hnone c Hin) as H. cbn in H.
      rewrite Hid, String.eqb_refl in H. done.
    + intros H. destruct (List.find _ _) as [c|] eqn:Hf; [|done].
      apply find_some in Hf as [Hin Hid]. apply String.eqb_eq in Hid.
      apply list_elem_of_In in Hin. by destruct (H c Hin).
Qed.

Lemma findComponentById_first_match_witness :
  ∃ forest n',
    getComponentTree rnd_fixed plain_app 20 (renderer_at 3) 0 = (Done forest, n')
    ∧ name <$> findComponentById forest "Counter__0_k3x9q2m1a" = Some "Counter"
    ∧ findComponentById forest "Counter" = None.
Proof.
  do 2 eexists. split; [by vm_compute|].
  split.
  - by rewrite (proj1 (findComponentById_first_match _ _)).
  - apply (findComponentById_first_match _ "Counter").
    intros c Hc.
    repeat (apply elem_of_cons in Hc as [->|Hc]; [by vm_compute|]).
    by apply elem_of_nil in Hc.
Defined.


(** *** Successful walks, case by case *)

Lemma bind_done {A B} (m : M A) (k : A → M B) n r n' :
  bind m k n = (Done r, n') →
  ∃ a n1, m n = (Done a, n1) ∧ k a n1 = (Done r, n').
Proof.
  unfold bind. destruct (m n) as [[a| |] n1]; [eauto | done | done].
Qed.

Lemma lift_done {A} (o : outcome A) n a n' :
  lift o n = (Done a, n') → o = Done a ∧ n' = n.
Proof. unfold lift. by intros [= -> ->]. Qed.

Lemma ret_done {A} (a b : A) (n n' : nat) :
  ret a n = (Done b, n') → b = a ∧ n' = n.
Proof. unfold ret. by intros [= -> ->]. Qed.

(** Every walk that returns was built from five kinds of steps: a null
    reference, a skipped fiber, a materialised fiber, the end of a sibling
    list, and one more sibling. *)
Lemma walk_cases rnd g
    (P : option loc → nat → option ReactComponent → nat → Prop)
    (Q : option loc → list ReactComponent → nat → list ReactComponent → nat → Prop) :
  (∀ f n, deref_fiber g f = None → P f n None n) →
  (∀ l fb n, fibers g !! l = Some fb → shouldSkipFiber fb = Done true →
             P (Some l) n None n) →
  (∀ l fb n ident ty (fuel : nat) hs kids n',
      fibers g !! l = Some fb →
      shouldSkipFiber fb = Done false →
      generateComponentId rnd fb n = (Done ident, S n) →
      getComponentType fb = Done ty →
      extractHooks fuel g fb = Done hs →
      Q (child fb) [] (S n) kids n' →
      P (Some l) n
        (Some {| id := ident; name := getComponentName fb; type := ty;
                 displayName := None; props := memoizedProps fb;
                 state := memoizedState fb; hooks := hs; children := kids;
                 fiber := Some l; source := getComponentSource fb |}) n') →
  (∀ c acc n, deref_fiber g c = None → Q c acc n acc n) →
  (∀ l cf acc n r n1 kids n2,
      fibers g !! l = Some cf →
      P (Some l) n r n1 →
      Q (sibling cf) (match r with Some x => acc ++ [x] | None => acc end)
        n1 kids n2 →
      Q (Some l) acc n kids n2) →
  ∀ fuel : nat,
    (∀ f depth n r n',
        fiberToComponent rnd g fuel f depth n = (Done r, n') → P f n r n')
    ∧ (∀ c depth acc n kids n',
        extractChildren rnd g fuel c depth acc n = (Done kids, n') →
        Q c acc n kids n').
Proof.
  intros Hnull Hskip Hnode Hend Hsib.
  induction fuel as [|fuel [IHf IHc]]; [by split|].
  split.
  - intros f depth n r n'. rewrite fiberToComponent_S.
    destruct (deref_fiber g f) as [fb|] eqn:Hf.
    + destruct f as [l|]; [|done]. cbn in Hf.
      intros (skip & n1 & [E1 ->]%lift_done & H)%bind_done.
      destruct skip.
      * apply ret_done in H as [-> ->]. by eapply Hskip.
      * apply bind_done in H as (ident & n2 & E2 & H).
        assert (n2 = S n) as -> by (by injection E2).
        apply bind_done in H as (ty & n3 & [E3 ->]%lift_done & H).
        apply bind_done in H as (hs & n4 & [E4 ->]%lift_done & H).
        apply bind_done in H as (kids & n5 & E5 & H).
        apply ret_done in H as [-> ->].
        eapply Hnode; eauto.
    + intros [-> ->]%ret_done. by apply Hnull.
  - intros c depth acc n kids n'. rewrite extractChildren_S.
    destruct (deref_fiber g c) as [cf|] eqn:Hc.
    + destruct c as [l|]; [|done]. cbn in Hc.
      intros (r & n1 & E1 & H)%bind_done.
      eapply Hsib; eauto.
    + intros [-> ->]%ret_done. by apply Hend.
Qed.


(** *** What every walk that returns guarantees *)

Lemma forest_nodes_cons c kids :
  forest_nodes (c :: kids) = nodes c ++ forest_nodes kids.
Proof. reflexivity. Qed.

Lemma forest_nodes_app l1 l2 :
  forest_nodes (l1 ++ l2) = forest_nodes l1 ++ forest_nodes l2.
Proof. unfold forest_nodes. by rewrite map_app, concat_app. Qed.

Lemma nodes_unfold c : nodes c = c :: forest_nodes (children c).
Proof. by destruct c. Qed.

Lemma walk_mirrors rnd g (fuel : nat) f depth n c n' :
  fiberToComponent rnd g fuel f depth n = (Done (Some c), n') →
  fiber c = f ∧ Forall (mirrors g) (nodes c).
Proof.
  intros H.
  refine (proj1 (walk_cases rnd g
    (λ f _ r _, match r with
                | Some c => fiber c = f ∧ Forall (mirrors g) (nodes c)
                | None => True
                end)
    (λ _ acc _ kids _, ∃ new, kids = acc ++ new
                              ∧ Forall (mirrors g) (forest_nodes new))
    _ _ _ _ _ fuel) f depth n (Some c) n' H); clear.
  - done.
  - done.
  - intros l fb n ident ty fuel hs kids n' Hl Hskip _ Hty _ (new & -> & Hnew).
    split; [done|]. rewrite nodes_unfold. cbn [children app].
    constructor; [|done]. exists l, fb. by repeat split.
  - intros c acc n _. exists []. by rewrite List.app_nil_r.
  - intros l cf acc n r n1 kids n2 _ Hr (new & -> & Hnew).
    destruct r as [x|].
    + exists (x :: new). rewrite <- List.app_assoc. split; [done|].
      rewrite forest_nodes_cons. apply Forall_app. by destruct Hr.
    + by exists new.
Qed.

Lemma skipped_false g l fb :
  fibers g !! l = Some fb → shouldSkipFiber fb = Done false → kept g l = true.
Proof. intros Hl Hs. unfold kept, skipped. by rewrite Hl, Hs. Qed.

Lemma skipped_true g l fb :
  fibers g !! l = Some fb → shouldSkipFiber fb = Done true → kept g l = false.
Proof. intros Hl Hs. unfold kept, skipped. by rewrite Hl, Hs. Qed.

Lemma walk_order rnd g (fuel : nat) f depth n c n' :
  fiberToComponent rnd g fuel f depth n = (Done (Some c), n') →
  Forall (children_in_sibling_order g) (nodes c).
Proof.
  intros H.
  refine (proj2 (proj1 (walk_cases rnd g
    (λ f _ r _,
       match r with
       | Some c =>
           (∃ l, f = Some l ∧ fiber c = Some l ∧ kept g l = true)
           ∧ Forall (children_in_sibling_order g) (nodes c)
       | None => ∀ l, f = Some l → kept g l = false ∨ fibers g !! l = None
       end)
    (λ c acc _ kids _,
       ∃ new locs, kids = acc ++ new
                   ∧ sibling_chain g c locs
                   ∧ map fiber new = map Some (List.filter (kept g) locs)
                   ∧ Forall (children_in_sibling_order g) (forest_nodes new))
    _ _ _ _ _ fuel) f depth n (Some c) n' H)); clear.
  - intros f0 n0 Hnull l ->. by right.
  - intros l fb n0 Hl Hs l' [= <-]. left. by eapply skipped_true.
  - intros l fb n0 ident ty fuel0 hs kids n0' Hl Hs _ _ _
      (new & locs & -> & Hchain & Hmap & Hall).
    split; [exists l; split; [done|]; split; [done|]; by eapply skipped_false|].
    rewrite nodes_unfold. cbn [children app]. constructor; [|done].
    exists l, fb, locs. by repeat split.
  - intros c0 acc n0 Hnull. exists [], []. rewrite List.app_nil_r.
    split; [done|]. split; [by constructor|]. by split.
  - intros l cf acc n0 r n1 kids n2 Hl Hr (new & locs & -> & Hchain & Hmap & Hall).
    destruct r as [x|].
    + destruct Hr as [(l' & [= <-] & Hfx & Hkept) Hx].
      exists (x :: new), (l :: locs). rewrite <- List.app_assoc.
      split; [done|]. split; [by econstructor|]. split.
      * cbn [List.filter map]. by rewrite Hkept, Hfx, Hmap.
      * rewrite forest_nodes_cons. by apply Forall_app.
    + exists new, (l :: locs). split; [done|]. split; [by econstructor|].
      split; [|done].
      cbn [List.filter]. destruct (Hr l eq_refl) as [->|Hnone]; [done|].
      by rewrite Hl in Hnone.
Qed.


(** *** What [getComponentTree] hands out *)

Lemma climb_top g (fuel : nat) fb top :
  climb g fuel fb = Done top → deref_fiber g (fiber_return top) = None.
Proof.
  revert fb. induction fuel as [|fuel IH]; intros fb; [done|].
  cbn [climb]. destruct (deref_fiber g (fiber_return fb)) as [p|] eqn:E.
  - apply IH.
  - by intros [= <-].
Qed.

Lemma getComponentTree_done rnd g (fuel : nat) renderer n forest n' :
  getComponentTree rnd g fuel renderer n = (Done forest, n') →
  forest = []
  ∨ ∃ r rootFiber top c,
      renderer = Some {| getCurrentFiber := Some (Some r) |}
      ∧ fibers g !! r = Some rootFiber
      ∧ climb g fuel rootFiber = Done top
      ∧ fiberToComponent rnd g fuel (child top) 0 n = (Done (Some c), n')
      ∧ forest = [c].
Proof.
  unfold getComponentTree.
  destruct renderer as [[[currentFiber|]]|];
    [|by intros [-> _]%ret_done; left..].
  cbn [getCurrentFiber]. unfold try_catch.
  destruct (getComponentTree_body rnd g fuel currentFiber n) as [[res| |] m] eqn:E;
    [|by intros [= <- _]; left|done].
  intros [= -> ->]. unfold getComponentTree_body in E.
  destruct currentFiber as [r|]; [|apply ret_done in E as [-> _]; by left].
  destruct (fibers g !! r) as [rootFiber|] eqn:Hr;
    [|apply ret_done in E as [-> _]; by left].
  apply bind_done in E as (top & n1 & [Hclimb ->]%lift_done & E).
  destruct (deref_fiber g (child top)); [|apply ret_done in E as [-> _]; by left].
  apply bind_done in E as ([c|] & n2 & Hwalk & E); apply ret_done in E as [-> ->].
  - right. exists r, rootFiber, top, c. by repeat split.
  - by left.
Qed.

Lemma forest_nodes_one c : forest_nodes [c] = nodes c.
Proof. unfold forest_nodes. cbn. by rewrite List.app_nil_r. Qed.



(** X3.  In an extracted forest the children of every component are
    exactly the fibers on the sibling list of its fiber's first child that
    are not skipped, in sibling order. *)
Theorem children_follow_sibling_order
    rnd g (fuel : nat) renderer (n : nat) forest (n' : nat) :
  getComponentTree rnd g fuel renderer n = (Done forest, n') →
  Forall (children_in_sibling_order g) (forest_nodes forest).
Proof.
  intros [->|(r & rootFiber & top & c & _ & _ & _ & Hwalk & ->)]%getComponentTree_done.
  - constructor.
  - rewrite forest_nodes_one. by eapply walk_order.
Qed.

Lemma children_follow_sibling_order_witness :
  ∃ forest n',
    getComponentTree rnd_fixed wrapped_child 20 (renderer_at 3) 0 = (Done forest, n')
    ∧ map name (forest_nodes forest) = ["App"; "Other"]
    ∧ Forall (children_in_sibling_order wrapped_child) (forest_nodes forest).
Proof.
  do 2 eexists. split; [by vm_compute|]. split; [reflexivity|].
  eapply (children_follow_sibling_order rnd_fixed wrapped_child 20 (renderer_at 3) 0).
  by vm_compute.
Defined.

(** X4.  [getComponentTree] returns at most one tree.  Its root is the first
    child of the topmost ancestor of the renderer's current fiber (the
    fiber reached by following [return] until it is null); the siblings of
    that child are not visited. *)
Theorem getComponentTree_single_root
    rnd g (fuel : nat) renderer (n : nat) forest (n' : nat) :
  getComponentTree rnd g fuel renderer n = (Done forest, n') →
  length forest ≤ 1
  ∧ ∀ c, c ∈ forest →
      ∃ r rootFiber top,
        renderer = Some {| getCurrentFiber := Some (Some r) |}
        ∧ fibers g !! r = Some rootFiber
        ∧ climb g fuel rootFiber = Done top
        ∧ deref_fiber g (fiber_return top) = None
        ∧ fiber c = child top.
Proof.
  intros [->|(r & rootFiber & top & c & -> & Hr & Hclimb & Hwalk & ->)]%getComponentTree_done.
  - split; [cbn; lia|]. intros c Hc. by apply elem_of_nil in Hc.
  - split; [done|]. intros c' ->%list_elem_of_singleton.
    exists r, rootFiber, top. split; [done|]. split; [done|]. split; [done|].
    split; [by eapply climb_top|]. by eapply walk_mirrors.
Qed.

Lemma getComponentTree_single_root_witness :
  ∃ forest,
    getComponentTree rnd_fixed two_top_level_fibers 20 (renderer_at 2) 0
      = (Done forest, 1)
    ∧ map name forest = ["App"]
    ∧ map children forest = [[]]
    ∧ length forest ≤ 1.
Proof.
  eexists. split; [by vm_compute|]. split; [reflexivity|].
  split; [reflexivity|].
  eapply proj1,
    (getComponentTree_single_root rnd_fixed two_top_level_fibers 20
       (renderer_at 2) 0).
  by vm_compute.
Defined.

(** *** Hook records of a snapshot *)

Lemma extractHooks_loop_sound g (fuel : nat) :
  ∀ r (i : nat) acc hs,
    extractHooks_loop fuel g r (Z.of_nat i) acc = Done hs →
    ∃ chain, decoded_chain g r chain
             ∧ hs = acc ++ imap (λ k, hook_record (i + k)) chain.
Proof.
  induction fuel as [|fuel IH]; intros r i acc hs; [done|].
  cbn [extractHooks_loop].
  destruct (deref_hook g r) as [hn|] eqn:Hr.
  - destruct (hn_throws_memoizedState hn) eqn:Hm.
    { intros [= <-]. exists []. rewrite List.app_nil_r. split; [|done].
      eapply decoded_unread; [done|]. by rewrite Hm. }
    destruct (hn_throws_deps hn) eqn:Hd.
    { intros [= <-]. exists []. rewrite List.app_nil_r. split; [|done].
      eapply decoded_unread; [done|]. by rewrite Hm, Hd. }
    destruct (hn_throws_next hn) eqn:Hn.
    + intros [= <-]. exists [hn]. split.
      * eapply decoded_last; [done| |done]. by rewrite Hm, Hd.
      * cbn [imap]. by rewrite Nat.add_0_r.
    + replace (Z.of_nat i + 1)%Z with (Z.of_nat (S i)) by lia.
      intros (chain & Hchain & ->)%IH. exists (hn :: chain). split.
      * eapply decoded_step; [done| |done|done]. by rewrite Hm, Hd.
      * rewrite <- List.app_assoc. cbn [imap app]. rewrite Nat.add_0_r.
        f_equal. apply (f_equal2 cons); [reflexivity|].
        apply imap_ext. intros k hn' _. cbn. f_equal. lia.
  - intros [= <-]. exists []. rewrite List.app_nil_r. split; [|done].
    by apply decoded_end.
Qed.

Lemma extractHooks_sound g (fuel : nat) fb hs :
  extractHooks fuel g fb = Done hs →
  ∃ chain, decoded_chain g (memoizedState fb) chain
           ∧ hs = imap hook_record chain.
Proof.
  unfold extractHooks.
  destruct (deref_hook g (memoizedState fb)) as [hn|] eqn:Hd.
  - intros H. exact (extractHooks_loop_sound g fuel _ 0 [] hs H).
  - intros [= <-]. exists []. split; [by apply decoded_end|done].
Qed.

Lemma walk_hooks rnd g (fuel : nat) f depth n c n' :
  fiberToComponent rnd g fuel f depth n = (Done (Some c), n') →
  Forall (hooks_decoded g) (nodes c).
Proof.
  intros H.
  refine (proj1 (walk_cases rnd g
    (λ _ _ r _, match r with
                | Some c => Forall (hooks_decoded g) (nodes c)
                | None => True
                end)
    (λ _ acc _ kids _, ∃ new, kids = acc ++ new
                              ∧ Forall (hooks_decoded g) (forest_nodes new))
    _ _ _ _ _ fuel) f depth n (Some c) n' H); clear.
  - done.
  - done.
  - intros l fb n ident ty fuel hs kids n' Hl _ _ _ Hhs (new & -> & Hnew).
    rewrite nodes_unfold. cbn [children app].
    constructor; [|done].
    apply extractHooks_sound in Hhs as (chain & Hchain & ->).
    by exists l, fb, chain.
  - intros c acc n _. exists []. by rewrite List.app_nil_r.
  - intros l cf acc n r n1 kids n2 _ Hr (new & -> & Hnew).
    destruct r as [x|].
    + exists (x :: new). rewrite <- List.app_assoc. split; [done|].
      rewrite forest_nodes_cons. by apply Forall_app.
    + by exists new.
Qed.

(** X5.  Every component of an extracted forest carries one hook record
    per decoded node of its fiber's hook chain, in chain order: record [i]
    has id [i], name [Hook i], and the type, value and dependencies of the
    [i]-th node.  The decoded nodes are those before the first node whose
    state or dependencies cannot be read, up to and including the first
    node whose [next] cannot be read. *)
Theorem extracted_hooks_follow_chain
    rnd g (fuel : nat) renderer (n : nat) forest (n' : nat) :
  getComponentTree rnd g fuel renderer n = (Done forest, n') →
  Forall (hooks_decoded g) (forest_nodes forest).
Proof.
  intros [->|(r & rootFiber & top & c & _ & _ & _ & Hwalk & ->)]%getComponentTree_done.
  - constructor.
  - rewrite forest_nodes_one. by eapply walk_hooks.
Qed.

Lemma extracted_hooks_follow_chain_witness :
  ∃ Form n',
    getComponentTree rnd_fixed third_hook_unreadable 20 (renderer_at 1) 0
      = (Done [Form], n')
    ∧ map hook_name (hooks Form) = ["Hook 0"; "Hook 1"]
    ∧ Forall (hooks_decoded third_hook_unreadable) (forest_nodes [Form]).
Proof.
  do 2 eexists. split; [by vm_compute|]. split; [reflexivity|].
  eapply (extracted_hooks_follow_chain rnd_fixed third_hook_unreadable 20
            (renderer_at 1) 0).
  by vm_compute.
Defined.

End ReactDetectorRestFacts.

